(** * JsonLogViewer: extraction, level resolution, catalog and filtering

    A shallow embedding of the logic of [src/log-visualizer/src/JsonLogViewer.jsx]:
    [extractJsonObjects], [extractLevels], [getLogLevel], [filterLogs] and the
    two handlers that call it, together with the JavaScript built-ins these
    functions use ([split], [trim], [startsWith], [endsWith], [||], [toString],
    [toUpperCase], [Set], [sort], [indexOf], [slice], [includes], [filter],
    [JSON.stringify]).

    What the host provides and the component only calls is a parameter of the
    development: the number type with its conversions and the Unicode case
    tables outside ASCII (class [Host]), and [JSON.parse] (a variable of the
    section). *)

From Stdlib Require Import List Bool Arith NArith ZArith Lia String Ascii.
From Stdlib Require Import Sorted DecimalString.
Import ListNotations.

Set Implicit Arguments.
Set Warnings "-register-all".


(** ** Strings

    A JavaScript string is a sequence of UTF-16 code units. *)

Definition jsstring := list N.

(** A literal written with ASCII characters. *)
Definition str (s : string) : jsstring := map N_of_ascii (list_ascii_of_string s).

Definition is_empty (s : jsstring) : bool :=
  match s with [] => true | _ :: _ => false end.

Fixpoint str_eqb (a b : jsstring) : bool :=
  match a, b with
  | [], [] => true
  | x :: a', y :: b' => (x =? y)%N && str_eqb a' b'
  | _, _ => false
  end.

(** [a < b] on strings: code unit by code unit, a proper prefix first. *)
Fixpoint str_ltb (a b : jsstring) : bool :=
  match a, b with
  | [], [] => false
  | [], _ :: _ => true
  | _ :: _, [] => false
  | x :: a', y :: b' =>
      if (x <? y)%N then true else if (y <? x)%N then false else str_ltb a' b'
  end.

(** [s.split(sep)] for a separator of one code unit. *)
Fixpoint split (s : jsstring) (sep : N) : list jsstring :=
  match s with
  | [] => [[]]
  | c :: s' =>
      if (c =? sep)%N then [] :: split s' sep
      else match split s' sep with
           | l :: ls => (c :: l) :: ls
           | [] => [[c]]
           end
  end.

(** WhiteSpace and LineTerminator code units, the ones [trim] strips. *)
Definition isWhiteSpace (c : N) : bool :=
  ((c =? 0x09) || (c =? 0x0A) || (c =? 0x0B) || (c =? 0x0C) || (c =? 0x0D)
   || (c =? 0x20) || (c =? 0xA0) || (c =? 0x1680)
   || ((0x2000 <=? c) && (c <=? 0x200A))
   || (c =? 0x2028) || (c =? 0x2029) || (c =? 0x202F) || (c =? 0x205F)
   || (c =? 0x3000) || (c =? 0xFEFF))%N.

Fixpoint trimStart (s : jsstring) : jsstring :=
  match s with
  | [] => []
  | c :: s' => if isWhiteSpace c then trimStart s' else s
  end.

Definition trimEnd (s : jsstring) : jsstring := rev (trimStart (rev s)).

Definition trim (s : jsstring) : jsstring := trimEnd (trimStart s).

Fixpoint startsWith (s p : jsstring) {struct p} : bool :=
  match p, s with
  | [], _ => true
  | _ :: _, [] => false
  | x :: p', y :: s' => (x =? y)%N && startsWith s' p'
  end.

Definition endsWith (s p : jsstring) : bool := startsWith (rev s) (rev p).

(** [s.includes(t)] on strings: [t] occurs in [s] at some offset. *)
Fixpoint includes (s t : jsstring) : bool :=
  startsWith s t || match s with [] => false | _ :: s' => includes s' t end.

Definition isAscii (c : N) : bool := (c <? 0x80)%N.

Definition upperAscii (c : N) : N :=
  if ((0x61 <=? c) && (c <=? 0x7A))%N then (c - 0x20)%N else c.

Definition lowerAscii (c : N) : N :=
  if ((0x41 <=? c) && (c <=? 0x5A))%N then (c + 0x20)%N else c.

(** [items.join(sep)] over strings already converted. *)
Fixpoint join (items : list jsstring) (sep : jsstring) : jsstring :=
  match items with
  | [] => []
  | [s] => s
  | s :: rest => s ++ sep ++ join rest sep
  end.

(** ** Exceptions *)

Inductive error := TypeError | SyntaxError.

Inductive result (A : Type) : Type :=
| Ok (a : A)
| Throw (e : error).

Arguments Ok {A} a.
Arguments Throw {A} e.

Definition bind {A B} (r : result A) (k : A -> result B) : result B :=
  match r with
  | Ok a => k a
  | Throw e => Throw e
  end.

Notation "x <- c1 ;; c2" := (bind c1 (fun x => c2))
  (at level 61, c1 at next level, right associativity).

(** A callback run over an array in index order; the first exception ends the walk. *)
Definition mapM {A B} (f : A -> result B) : list A -> result (list B) :=
  fix go (l : list A) : result (list B) :=
    match l with
    | [] => Ok []
    | x :: l' => y <- f x ;; ys <- go l' ;; Ok (y :: ys)
    end.

(** [array.forEach] threading the state the callback updates. *)
Definition foldM {A S} (f : S -> A -> result S) : list A -> S -> result S :=
  fix go (l : list A) (s : S) : result S :=
    match l with
    | [] => Ok s
    | x :: l' => s' <- f s x ;; go l' s'
    end.

(** [array.filter(p)]: a new array of the elements [p] accepts, in order. *)
Definition Array_filter {A} (p : A -> result bool) : list A -> result (list A) :=
  fix go (l : list A) : result (list A) :=
    match l with
    | [] => Ok []
    | x :: l' => b <- p x ;; rest <- go l' ;; Ok (if b then x :: rest else rest)
    end.

(** [array.indexOf(x)] on an array of strings, [-1] when absent. *)
Fixpoint indexOf_from (l : list jsstring) (x : jsstring) (i : Z) : Z :=
  match l with
  | [] => (-1)%Z
  | y :: l' => if str_eqb y x then i else indexOf_from l' x (i + 1)%Z
  end.

Definition indexOf (l : list jsstring) (x : jsstring) : Z := indexOf_from l x 0%Z.

(** [array.slice(start)] for [start >= 0]. *)
Definition slice {A} (l : list A) (start : Z) : list A := skipn (Z.to_nat start) l.

(** [array.includes(x)] on an array of strings. *)
Definition Array_includes (l : list jsstring) (x : jsstring) : bool :=
  existsb (fun y => str_eqb y x) l.

(** [set.add(x)]: a [Set] keeps insertion order and one copy of each string. *)
Definition Set_add (levels : list jsstring) (x : jsstring) : list jsstring :=
  if Array_includes levels x then levels else levels ++ [x].

(** [array.sort()] with the default comparison, on an array of strings. *)
Fixpoint sort_insert (x : jsstring) (l : list jsstring) : list jsstring :=
  match l with
  | [] => [x]
  | y :: l' => if str_ltb x y then x :: l else y :: sort_insert x l'
  end.

Fixpoint sort (l : list jsstring) : list jsstring :=
  match l with
  | [] => []
  | x :: l' => sort_insert x (sort l')
  end.

(** ** JSON text of a string ([QuoteJSONString]) *)

Definition hexDigit (d : N) : N :=
  if (d <? 10)%N then (0x30 + d)%N else (0x57 + d)%N.

Definition UnicodeEscape (c : N) : jsstring :=
  [0x5C; 0x75; hexDigit ((c / 0x1000) mod 16); hexDigit ((c / 0x100) mod 16);
   hexDigit ((c / 0x10) mod 16); hexDigit (c mod 16)]%N.

Definition isLeadingSurrogate (c : N) : bool := ((0xD800 <=? c) && (c <=? 0xDBFF))%N.

Definition isTrailingSurrogate (c : N) : bool := ((0xDC00 <=? c) && (c <=? 0xDFFF))%N.

Definition quoteUnit (c : N) : jsstring :=
  (if c =? 0x08 then [0x5C; 0x62]
   else if c =? 0x09 then [0x5C; 0x74]
   else if c =? 0x0A then [0x5C; 0x6E]
   else if c =? 0x0C then [0x5C; 0x66]
   else if c =? 0x0D then [0x5C; 0x72]
   else if c =? 0x22 then [0x5C; 0x22]
   else if c =? 0x5C then [0x5C; 0x5C]
   else if c <? 0x20 then UnicodeEscape c
   else [c])%N.

Fixpoint quoteUnits (s : jsstring) : jsstring :=
  match s with
  | [] => []
  | c :: s' =>
      if isLeadingSurrogate c then
        match s' with
        | d :: s'' =>
            if isTrailingSurrogate d then c :: d :: quoteUnits s''
            else UnicodeEscape c ++ quoteUnits s'
        | [] => UnicodeEscape c
        end
      else if isTrailingSurrogate c then UnicodeEscape c ++ quoteUnits s'
      else quoteUnit c ++ quoteUnits s'
  end.

Definition QuoteJSONString (s : jsstring) : jsstring :=
  [0x22%N] ++ quoteUnits s ++ [0x22%N].

(** ** JSON values and the host *)

(** The values [JSON.parse] builds, over the host's numbers. An object is its
    own properties in enumeration order. *)
Inductive json (number : Type) : Type :=
| JNull
| JBoolean (b : bool)
| JNumber (n : number)
| JString (s : jsstring)
| JArray (items : list (json number))
| JObject (props : list (jsstring * json number)).

Arguments JNull {number}.
Arguments JBoolean {number} b.
Arguments JNumber {number} n.
Arguments JString {number} s.
Arguments JArray {number} items.
Arguments JObject {number} props.

(** Numbers are IEEE doubles. The component converts them to booleans and to
    text and does nothing else with them, so the type and its conversions are
    the host's; so is case conversion of text outside ASCII. *)
Class Host : Type := {
  number : Type;
  (** [ToBoolean] of a number: false for [+0], [-0] and [NaN]. *)
  Number_ToBoolean : number -> bool;
  (** [Number::toString] in radix 10. *)
  Number_toString : number -> jsstring;
  (** False for [NaN] and the infinities. *)
  Number_isFinite : number -> bool;
  (** Case conversion of a string that holds a code unit outside ASCII. *)
  Unicode_toUpperCase : jsstring -> jsstring;
  Unicode_toLowerCase : jsstring -> jsstring
}.

(** ** The component *)

Section Component.

Context {host : Host}.

(** A parsed log record. *)
Definition record : Type := json number.

(** [JSON.parse(text)]; [Throw SyntaxError] when the text is not JSON. *)
Variable JSON_parse : jsstring -> result record.

Definition toUpperCase (s : jsstring) : jsstring :=
  if forallb isAscii s then map upperAscii s else Unicode_toUpperCase s.

Definition toLowerCase (s : jsstring) : jsstring :=
  if forallb isAscii s then map lowerAscii s else Unicode_toLowerCase s.

(** A value read from a property: [None] is [undefined]. *)
Definition value : Type := option record.

Fixpoint own (props : list (jsstring * record)) (k : jsstring) : value :=
  match props with
  | [] => None
  | (k', v) :: props' => if str_eqb k' k then Some v else own props' k
  end.

(** [o.k] for a property name [k] that no built-in prototype defines (the
    four level fields): an own property of an object, [undefined] on any
    other value, a TypeError on [null]. *)
Definition Get (o : record) (k : jsstring) : result value :=
  match o with
  | JNull => Throw TypeError
  | JObject props => Ok (own props k)
  | _ => Ok None
  end.

Definition ToBoolean (v : value) : bool :=
  match v with
  | None => false
  | Some JNull => false
  | Some (JBoolean b) => b
  | Some (JNumber n) => Number_ToBoolean n
  | Some (JString s) => negb (is_empty s)
  | Some (JArray _) => true
  | Some (JObject _) => true
  end.

(** [a || b]: [a] when it is truthy, [b] otherwise. *)
Definition or_else (a b : result value) : result value :=
  x <- a ;; if ToBoolean x then Ok x else b.

Infix "|||" := or_else (at level 50, left associativity).

(** [ToString(v)]. An array joins its elements with a comma, [null] elements
    as the empty string. An object answers through [Object.prototype.toString]
    unless it has an own property [toString], which parsed JSON cannot make
    callable: then the conversion is a TypeError. *)
Fixpoint ToString (v : record) : result jsstring :=
  match v with
  | JNull => Ok (str "null")
  | JBoolean b => Ok (if b then str "true" else str "false")
  | JNumber n => Ok (Number_toString n)
  | JString s => Ok s
  | JArray items =>
      parts <- mapM (fun x => match x with
                              | JNull => Ok []
                              | _ => ToString x
                              end) items ;;
      Ok (join parts (str ","))
  | JObject props =>
      match own props (str "toString") with
      | Some _ => Throw TypeError
      | None => Ok (str "[object Object]")
      end
  end.

(** The method call [v.toString()]. *)
Definition toString (v : value) : result jsstring :=
  match v with
  | None => Throw TypeError
  | Some JNull => Throw TypeError
  | Some x => ToString x
  end.

(** [JSON.stringify(v)] with no replacer and no indentation. *)
Fixpoint JSON_stringify (v : record) : jsstring :=
  match v with
  | JNull => str "null"
  | JBoolean b => if b then str "true" else str "false"
  | JNumber n => if Number_isFinite n then Number_toString n else str "null"
  | JString s => QuoteJSONString s
  | JArray items => str "[" ++ join (map JSON_stringify items) (str ",") ++ str "]"
  | JObject props =>
      str "{"
      ++ join (map (fun p => QuoteJSONString (fst p) ++ str ":" ++ JSON_stringify (snd p))
                 props) (str ",")
      ++ str "}"
  end.

(** *** Component state ([useState]) *)

Record stats_t : Type := { total : nat; ignored : nat }.

Record state : Type := {
  logs : list record;
  filteredLogs : list record;
  searchTerm : jsstring;
  selectedLevel : jsstring;
  availableLevels : list jsstring;
  stats : stats_t
}.

(** Hierarchical log level order (lowest to highest severity). *)
Definition levelHierarchy : list jsstring :=
  [str "DEBUG"; str "INFO"; str "WARN"; str "ERROR"; str "FATAL"].

(** *** extractJsonObjects *)

Record extraction : Type := { jsonObjects : list record; ignoredLines : nat }.

(** One turn of the loop over the lines. *)
Definition extract_line (acc : extraction) (line : jsstring) : extraction :=
  let trimmedLine := trim line in
  if startsWith trimmedLine (str "{") && endsWith trimmedLine (str "}") then
    match JSON_parse trimmedLine with
    | Ok jsonObj =>
        {| jsonObjects := jsonObjects acc ++ [jsonObj];
           ignoredLines := ignoredLines acc |}
    | Throw _ =>
        {| jsonObjects := jsonObjects acc; ignoredLines := ignoredLines acc + 1 |}
    end
  else if 0 <? List.length trimmedLine then
    {| jsonObjects := jsonObjects acc; ignoredLines := ignoredLines acc + 1 |}
  else acc.

Definition extractJsonObjects (content : jsstring) : extraction :=
  let lines := split content 0x0A%N in
  fold_left extract_line lines {| jsonObjects := []; ignoredLines := 0 |}.

(** *** extractLevels *)

Definition extractLevels (logs : list record) : result (list jsstring) :=
  levels <- foldM (fun levels log =>
      level <- (Get log (str "level") ||| Get log (str "severity")
                ||| Get log (str "log_level") ||| Get log (str "logLevel")) ;;
      if ToBoolean level then
        s <- toString level ;; Ok (Set_add levels (toUpperCase s))
      else Ok levels) logs [] ;;
  Ok (str "ALL" :: sort levels).

(** *** getLogLevel *)

Definition getLogLevel (log : record) : result jsstring :=
  level <- (Get log (str "level") ||| Get log (str "severity")
            ||| Get log (str "log_level") ||| Get log (str "logLevel")) ;;
  if ToBoolean level then s <- toString level ;; Ok (toUpperCase s)
  else Ok (str "UNKNOWN").

(** *** filterLogs

    [filtered] is the array the function hands to [setFilteredLogs]. *)
Definition filtered (logs : list record) (term level : jsstring) : result (list record) :=
  filtered <-
    (if negb (str_eqb level (str "ALL")) then
       let selectedIndex := indexOf levelHierarchy level in
       if negb (selectedIndex =? -1)%Z then
         let allowedLevels := slice levelHierarchy selectedIndex in
         Array_filter (fun log =>
           logLevel <- getLogLevel log ;;
           Ok (Array_includes allowedLevels logLevel)) logs
       else
         Array_filter (fun log =>
           logLevel <- getLogLevel log ;; Ok (str_eqb logLevel level)) logs
     else Ok logs) ;;
  if negb (is_empty term) then
    Array_filter (fun log =>
      Ok (includes (toLowerCase (JSON_stringify log)) (toLowerCase term))) filtered
  else Ok filtered.

Definition setFilteredLogs (v : list record) (st : state) : state :=
  {| logs := logs st; filteredLogs := v; searchTerm := searchTerm st;
     selectedLevel := selectedLevel st; availableLevels := availableLevels st;
     stats := stats st |}.

Definition setSearchTerm (v : jsstring) (st : state) : state :=
  {| logs := logs st; filteredLogs := filteredLogs st; searchTerm := v;
     selectedLevel := selectedLevel st; availableLevels := availableLevels st;
     stats := stats st |}.

Definition setSelectedLevel (v : jsstring) (st : state) : state :=
  {| logs := logs st; filteredLogs := filteredLogs st; searchTerm := searchTerm st;
     selectedLevel := v; availableLevels := availableLevels st;
     stats := stats st |}.

(** A handler leaves the state with the updates it queued and, when it was
    cut short, the exception it raised. *)
Definition outcome : Type := (state * option error)%type.

(** [filterLogs(term, level)] reads [logs] and writes [filteredLogs]. *)
Definition filterLogs (term level : jsstring) (st : state) : outcome :=
  match filtered (logs st) term level with
  | Ok v => (setFilteredLogs v st, None)
  | Throw e => (st, Some e)
  end.

Definition handleSearch (term : jsstring) (st : state) : outcome :=
  filterLogs term (selectedLevel st) (setSearchTerm term st).

Definition handleLevelFilter (level : jsstring) (st : state) : outcome :=
  filterLogs (searchTerm st) level (setSelectedLevel level st).

(** *** handleFileUpload *)

Definition setLogs (v : list record) (st : state) : state :=
  {| logs := v; filteredLogs := filteredLogs st; searchTerm := searchTerm st;
     selectedLevel := selectedLevel st; availableLevels := availableLevels st;
     stats := stats st |}.

Definition setStats (v : stats_t) (st : state) : state :=
  {| logs := logs st; filteredLogs := filteredLogs st; searchTerm := searchTerm st;
     selectedLevel := selectedLevel st; availableLevels := availableLevels st;
     stats := v |}.

Definition setAvailableLevels (v : list jsstring) (st : state) : state :=
  {| logs := logs st; filteredLogs := filteredLogs st; searchTerm := searchTerm st;
     selectedLevel := selectedLevel st; availableLevels := v;
     stats := stats st |}.

(** The state the hooks start from. *)
Definition initialState : state :=
  {| logs := []; filteredLogs := []; searchTerm := []; selectedLevel := str "ALL";
     availableLevels := []; stats := {| total := 0; ignored := 0 |} |}.

(** What the file input hands over: no file ([event.target.files[0]] is
    undefined), a file whose [text()] is rejected, or a file and its text. *)
Inductive chosen : Type :=
| NoFile
| Unreadable
| FileText (content : jsstring).

(** What the [catch] of [handleFileUpload] reports in its alert. *)
Inductive failure : Type :=
| ReadFailed
| Raised (e : error).

(** The three setters before [extractLevels] are queued already when it
    raises; the [catch] then alerts and the three after it are never called. *)
Definition handleFileUpload (file : chosen) (st : state) : state * option failure :=
  match file with
  | NoFile => (st, None)
  | Unreadable => (st, Some ReadFailed)
  | FileText content =>
      let extracted := extractJsonObjects content in
      let st :=
        setStats {| total := List.length (jsonObjects extracted);
                    ignored := ignoredLines extracted |}
          (setFilteredLogs (jsonObjects extracted)
             (setLogs (jsonObjects extracted) st)) in
      match extractLevels (jsonObjects extracted) with
      | Ok levels =>
          (setSearchTerm [] (setSelectedLevel (str "ALL") (setAvailableLevels levels st)),
           None)
      | Throw e => (st, Some (Raised e))
      end
  end.

(** *** getLevelIcon, getLevelColor *)

Inductive icon : Type := Info | AlertCircle | AlertTriangle | XCircle | CheckCircle.

Definition getLevelIcon (level : jsstring) : icon :=
  let upperLevel := toUpperCase level in
  if includes upperLevel (str "INFO") then Info
  else if includes upperLevel (str "DEBUG") then AlertCircle
  else if includes upperLevel (str "WARN") then AlertTriangle
  else if includes upperLevel (str "ERROR") || includes upperLevel (str "FATAL")
  then XCircle
  else if includes upperLevel (str "SUCCESS") then CheckCircle
  else AlertCircle.

Definition getLevelColor (isDark : bool) (level : jsstring) : jsstring :=
  let upperLevel := toUpperCase level in
  if isDark then
    if includes upperLevel (str "INFO")
    then str "bg-blue-900 border-blue-700 text-blue-300"
    else if includes upperLevel (str "DEBUG")
    then str "bg-slate-700 border-slate-600 text-slate-300"
    else if includes upperLevel (str "WARN")
    then str "bg-yellow-900 border-yellow-700 text-yellow-300"
    else if includes upperLevel (str "ERROR") || includes upperLevel (str "FATAL")
    then str "bg-red-900 border-red-700 text-red-300"
    else if includes upperLevel (str "SUCCESS")
    then str "bg-green-900 border-green-700 text-green-300"
    else str "bg-purple-900 border-purple-700 text-purple-300"
  else
    if includes upperLevel (str "INFO")
    then str "bg-blue-50 border-blue-200 text-blue-700"
    else if includes upperLevel (str "DEBUG")
    then str "bg-gray-50 border-gray-200 text-gray-700"
    else if includes upperLevel (str "WARN")
    then str "bg-yellow-50 border-yellow-200 text-yellow-700"
    else if includes upperLevel (str "ERROR") || includes upperLevel (str "FATAL")
    then str "bg-red-50 border-red-200 text-red-700"
    else if includes upperLevel (str "SUCCESS")
    then str "bg-green-50 border-green-200 text-green-700"
    else str "bg-purple-50 border-purple-200 text-purple-700".

(** *** formatValue *)

(** [JSON.stringify(v, null, 2)] inside a value printed at [indent]: the
    members of a non-empty array or object go on lines of their own, two
    spaces further in, and a colon is followed by a space. *)
Fixpoint stringify_indented (v : record) (indent : jsstring) : jsstring :=
  match v with
  | JNull => str "null"
  | JBoolean b => if b then str "true" else str "false"
  | JNumber n => if Number_isFinite n then Number_toString n else str "null"
  | JString s => QuoteJSONString s
  | JArray items =>
      match items with
      | [] => str "[]"
      | _ :: _ =>
          let stepback := indent in
          let indent := indent ++ str "  " in
          str "[" ++ [0x0A%N] ++ indent
          ++ join (map (fun x => stringify_indented x indent) items)
               (str "," ++ [0x0A%N] ++ indent)
          ++ [0x0A%N] ++ stepback ++ str "]"
      end
  | JObject props =>
      match props with
      | [] => str "{}"
      | _ :: _ =>
          let stepback := indent in
          let indent := indent ++ str "  " in
          str "{" ++ [0x0A%N] ++ indent
          ++ join (map (fun p => QuoteJSONString (fst p) ++ str ": "
                                 ++ stringify_indented (snd p) indent) props)
               (str "," ++ [0x0A%N] ++ indent)
          ++ [0x0A%N] ++ stepback ++ str "}"
      end
  end.

Definition formatValue (v : value) : jsstring :=
  match v with
  | Some JNull => str "null"
  | None => str "undefined"
  | Some (JArray items) => stringify_indented (JArray items) []
  | Some (JObject props) => stringify_indented (JObject props) []
  | Some (JBoolean b) => if b then str "true" else str "false"
  | Some (JNumber n) => Number_toString n
  | Some (JString s) => s
  end.

(** *** renderLogFields *)

(** [array.find(p)]: the first element [p] accepts, [undefined] when none. *)
Definition Array_find {A} (p : A -> result bool) : list A -> result (option A) :=
  fix go (l : list A) : result (option A) :=
    match l with
    | [] => Ok None
    | x :: l' => b <- p x ;; if b then Ok (Some x) else go l'
    end.

(** [ToBoolean] of what [find] answered: a string or [undefined]. *)
Definition ToBoolean_found (f : option jsstring) : bool :=
  match f with
  | Some k => negb (is_empty k)
  | None => false
  end.

(** [log[f]] with the key [find] answered; [undefined] as a key reads the
    property named ["undefined"]. *)
Definition Get_found (log : record) (f : option jsstring) : result value :=
  match f with
  | Some k => Get log k
  | None => Get log (str "undefined")
  end.

(** The [message] of the object [renderLogFields] returns; [null] is
    [Some JNull].  [Get] serves here too: none of the four names is a property
    of a built-in prototype of a JSON value. *)
Definition renderLogFields (log : record) : result value :=
  let messageFields := [str "message"; str "msg"; str "text"; str "description"] in
  found <- Array_find (fun f => v <- Get log f ;; Ok (ToBoolean v)) messageFields ;;
  if ToBoolean_found found then
    again <- Array_find (fun f => v <- Get log f ;; Ok (ToBoolean v)) messageFields ;;
    Get_found log again
  else Ok (Some JNull).

(** *** The rendered component *)

(** One card of the list: its class, icon and label, and the message
    paragraph when there is one. *)
Record card : Type := {
  card_color : jsstring;
  card_icon : icon;
  card_level : jsstring;
  card_message : option jsstring
}.

Definition renderCard (isDark : bool) (log : record) : result card :=
  level <- getLogLevel log ;;
  message <- renderLogFields log ;;
  Ok {| card_color := getLevelColor isDark level;
        card_icon := getLevelIcon level;
        card_level := level;
        card_message := if ToBoolean message then Some (formatValue message)
                        else None |}.

(** The list screen: the three counters, the value of the search box, the
    level selector (its options and its value) when it is rendered, the
    cards, and whether the line "No logs match your filters" is rendered. *)
Record listScreen : Type := {
  found : nat;
  linesIgnored : nat;
  showing : nat;
  searchBox : jsstring;
  levelSelect : option (list jsstring * jsstring);
  cards : list card;
  noMatch : bool
}.

Inductive screen : Type :=
| UploadPrompt
| LogList (l : listScreen).

Definition render (isDark : bool) (st : state) : result screen :=
  if List.length (logs st) =? 0 then Ok UploadPrompt
  else
    cards <- mapM (renderCard isDark) (filteredLogs st) ;;
    Ok (LogList
          {| found := total (stats st);
             linesIgnored := ignored (stats st);
             showing := List.length (filteredLogs st);
             searchBox := searchTerm st;
             levelSelect := if 1 <? List.length (availableLevels st)
                            then Some (availableLevels st, selectedLevel st)
                            else None;
             cards := cards;
             noMatch := List.length (filteredLogs st) =? 0 |}).

End Component.

(** * Vocabulary of the statements *)

(** [content.replaceAll("\n", "\r\n")]: the same text with Windows line ends. *)
Definition crlf (content : jsstring) : jsstring :=
  flat_map (fun c => if (c =? 0x0A)%N then [0x0D; 0x0A]%N else [c]) content.

(** The order [sort] puts strings in. *)
Definition str_lt (a b : jsstring) : Prop := str_ltb a b = true.

(** A line that still holds something once trimmed. *)
Definition nonBlank (line : jsstring) : bool := negb (is_empty (trim line)).

Definition nonBlankLineCount (content : jsstring) : nat :=
  List.length (filter nonBlank (split content 0x0A%N)).

(** [out] keeps some elements of [l], each at most once, in the order of [l]. *)
Inductive subsequence {A : Type} : list A -> list A -> Prop :=
| subsequence_nil : subsequence [] []
| subsequence_keep x out l : subsequence out l -> subsequence (x :: out) (x :: l)
| subsequence_drop x out l : subsequence out l -> subsequence out (x :: l).

(** What a callback answers on an element, an exception counting as a refusal. *)
Definition accepts {A} (p : A -> result bool) (x : A) : bool :=
  match p x with
  | Ok b => b
  | Throw _ => false
  end.

Section Vocabulary.

Context {host : Host}.

Infix "|||" := or_else (at level 50, left associativity).

(** The result of reading one text after another. *)
Definition extraction_append (a b : extraction) : extraction :=
  {| jsonObjects := jsonObjects a ++ jsonObjects b;
     ignoredLines := ignoredLines a + ignoredLines b |}.

(** The four fields a level is read from, in the order of the [||] chain. *)
Definition levelFields : list jsstring :=
  [str "level"; str "severity"; str "log_level"; str "logLevel"].

(** [log.level || log.severity || log.log_level || log.logLevel]. *)
Definition levelField (log : record) : result value :=
  Get log (str "level") ||| Get log (str "severity")
  ||| Get log (str "log_level") ||| Get log (str "logLevel").

(** The record has a level of its own: one of the four fields is truthy. *)
Definition hasLevel (log : record) : bool :=
  match levelField log with
  | Ok level => ToBoolean level
  | Throw _ => false
  end.

(** A value that is neither an array nor an object. *)
Definition primitive (v : record) : bool :=
  match v with
  | JArray _ => false
  | JObject _ => false
  | _ => true
  end.

(** [getLogLevel] returns on the record. *)
Definition resolves (log : record) : Prop := exists label, getLogLevel log = Ok label.

(** The record's label stands in the hierarchy at position [i] or later. *)
Definition atLeast (i : nat) (log : record) : Prop :=
  exists label j,
    getLogLevel log = Ok label /\ nth_error levelHierarchy j = Some label /\ i <= j.

(** The search term occurs in the lower-cased JSON text of the record. *)
Definition mentions (term : jsstring) (log : record) : Prop :=
  exists a b, toLowerCase (JSON_stringify log) = a ++ toLowerCase term ++ b.

(** *** The level resolver and the catalog as the specification words them *)

(** The specification counts a field as set when it is present with a value
    other than the empty string: [0], [false] and [null] count. *)
Definition nonEmpty_spec (v : value) : bool :=
  match v with
  | None => false
  | Some (JString s) => negb (is_empty s)
  | Some _ => true
  end.

Fixpoint firstField_spec (props : list (jsstring * record)) (fields : list jsstring)
  : value :=
  match fields with
  | [] => None
  | k :: fields' =>
      if nonEmpty_spec (own props k) then own props k
      else firstField_spec props fields'
  end.

Definition resolveLevel_spec (props : list (jsstring * record)) : result jsstring :=
  match firstField_spec props levelFields with
  | Some v => s <- ToString v ;; Ok (toUpperCase s)
  | None => Ok (str "UNKNOWN")
  end.

(** The specification's catalog: the distinct labels of all the records,
    sorted, after ["ALL"]. *)
Definition catalog_spec (logs : list record) : result (list jsstring) :=
  labels <- mapM getLogLevel logs ;;
  Ok (str "ALL" :: sort (fold_left Set_add labels [])).

(** *** Sample records *)

(** [{ k: v }]. *)
Definition field (k : string) (v : record) : record := JObject [(str k, v)].

(** [{ "level": l }]. *)
Definition leveled (l : string) : record := field "level" (JString (str l)).

(** A state in which ["ERROR"] is selected and [filteredLogs] is stale. *)
Definition sample_state : state :=
  {| logs := [leveled "debug"; leveled "info"; leveled "error"; leveled "warn"];
     filteredLogs := [leveled "debug"];
     searchTerm := [];
     selectedLevel := str "ERROR";
     availableLevels := [str "ALL"; str "DEBUG"; str "ERROR"; str "INFO"; str "WARN"];
     stats := {| total := 4; ignored := 0 |} |}.

End Vocabulary.

(** The three lines [{], ["a":1] and [}] of a pretty-printed object. *)
Definition pretty_printed : jsstring :=
  str "{" ++ [0x0A%N] ++ [0x22%N] ++ str "a" ++ [0x22%N] ++ str ":1" ++ [0x0A%N]
  ++ str "}".

(** A host to run the model on examples: integers for numbers, and case
    tables that leave text outside ASCII as it is (the examples are ASCII). *)
Definition reference_host : Host := {|
  number := Z;
  Number_ToBoolean := fun z => negb (z =? 0)%Z;
  Number_toString := fun z => str (NilZero.string_of_int (Z.to_int z));
  Number_isFinite := fun _ => true;
  Unicode_toUpperCase := fun s => s;
  Unicode_toLowerCase := fun s => s |}.

(** A stand-in for [JSON.parse] on examples: it parses the JSON text of the
    records listed and raises on every other line. *)
Definition parse_known (known : list (@record reference_host)) (s : jsstring)
  : result (@record reference_host) :=
  match find (fun r => str_eqb (JSON_stringify r) s) known with
  | Some r => Ok r
  | None => Throw SyntaxError
  end.

(** An error record with an empty [message] and a [msg]. *)
Definition disk_full : @record reference_host :=
  JObject [(str "level", JString (str "error")); (str "message", JString []);
           (str "msg", JString (str "disk full"))].

(** Three records: [{"level":"warn"}], [disk_full] and [{}]. *)
Definition sample_records : list (@record reference_host) :=
  [leveled "warn"; disk_full; JObject []].

(** A file of six lines: the three records, one per line, with an empty line,
    a line of text and a line of spaces between them. *)
Definition sample_file : jsstring :=
  join [JSON_stringify (leveled "warn" : @record reference_host); [];
        str "not json"; JSON_stringify disk_full; str "  "; str "{}"] [0x0A%N].

(** A record whose level is an object with a [toString] of its own, and the
    one-line file that holds it. *)
Definition masked_level : @record reference_host :=
  @field reference_host "level" (@field reference_host "toString" (JNumber 1%Z)).

Definition masked_file : jsstring := JSON_stringify masked_level.

(** The three records of [sample_state] that ["INFO"] selects. *)
Definition info_and_above : list (@record reference_host) :=
  [leveled "info"; leveled "error"; leveled "warn"].

(** ** Sessions *)

Section Sessions.

Context {host : Host}.
Variable JSON_parse : jsstring -> result record.

(** What the user does: choose a file, type in the search box, pick a level. *)
Inductive event : Type :=
| Upload (file : chosen)
| Search (term : jsstring)
| SelectLevel (level : jsstring).

(** What goes wrong in a handler: an alert of [handleFileUpload], or an
    exception that leaves [handleSearch] or [handleLevelFilter]. *)
Inductive trouble : Type :=
| Alerted (f : failure)
| Escaped (e : error).

Definition dispatch (ev : event) (st : state) : state * option trouble :=
  match ev with
  | Upload file =>
      (fst (handleFileUpload JSON_parse file st),
       option_map Alerted (snd (handleFileUpload JSON_parse file st)))
  | Search term =>
      (fst (handleSearch term st), option_map Escaped (snd (handleSearch term st)))
  | SelectLevel level =>
      (fst (handleLevelFilter level st),
       option_map Escaped (snd (handleLevelFilter level st)))
  end.

(** The state after the events, and what went wrong on the way, in order.
    Every handler may be called in every state: the component offers fewer
    sequences (no search box before a file is loaded, only the catalog's
    levels in the selector, nothing after a render that raised), so what
    holds of all of these holds of all it offers. *)
Fixpoint session (events : list event) (st : state) : state * list trouble :=
  match events with
  | [] => (st, [])
  | ev :: events' =>
      let after := dispatch ev st in
      let rest := session events' (fst after) in
      (fst rest,
       match snd after with
       | Some t => t :: snd rest
       | None => snd rest
       end)
  end.

(** What is shown is what the filter gives for the term and the level held. *)
Definition shownIsFiltered (st : state) : Prop :=
  filtered (logs st) (searchTerm st) (selectedLevel st) = Ok (filteredLogs st).

(** The level test of [filterLogs] on one record, by the branch taken. *)
Definition levelTest (level : jsstring) (log : record) : result bool :=
  if negb (str_eqb level (str "ALL")) then
    let selectedIndex := indexOf levelHierarchy level in
    if negb (selectedIndex =? -1)%Z then
      logLevel <- getLogLevel log ;;
      Ok (Array_includes (slice levelHierarchy selectedIndex) logLevel)
    else logLevel <- getLogLevel log ;; Ok (str_eqb logLevel level)
  else Ok true.

(** The search test of [filterLogs] on one record. *)
Definition searchTest (term : jsstring) (log : record) : bool :=
  if negb (is_empty term)
  then includes (toLowerCase (JSON_stringify log)) (toLowerCase term)
  else true.

(** The four fields a message is read from, in the order [find] tries them. *)
Definition messageFields : list jsstring :=
  [str "message"; str "msg"; str "text"; str "description"].

(** The branch [getLevelIcon] and [getLevelColor] take on a level: both try
    the same tests in the same order. *)
Inductive tone : Type := Blue | Slate | Yellow | Red | Green | Purple.

Definition tone_of (level : jsstring) : tone :=
  let upperLevel := toUpperCase level in
  if includes upperLevel (str "INFO") then Blue
  else if includes upperLevel (str "DEBUG") then Slate
  else if includes upperLevel (str "WARN") then Yellow
  else if includes upperLevel (str "ERROR") || includes upperLevel (str "FATAL")
  then Red
  else if includes upperLevel (str "SUCCESS") then Green
  else Purple.

End Sessions.

(** A session: load [sample_file], search for ["disk"], choose a file that
    cannot be read, select ["ERROR"], open the file dialog and cancel. *)
Definition sample_events : list event :=
  [Upload (FileText sample_file); Search (str "disk"); Upload Unreadable;
   SelectLevel (str "ERROR"); Upload NoFile].

(** * Properties *)

(** ** Strings *)

Lemma str_eqb_eq (a b : jsstring) : str_eqb a b = true <-> a = b.
Proof.
  revert b; induction a as [|x a IH]; intros [|y b]; simpl; split; intro H;
    try reflexivity; try discriminate.
  - apply andb_true_iff in H as [Hx Hab].
    apply N.eqb_eq in Hx. apply IH in Hab. now subst.
  - injection H as -> ->. rewrite N.eqb_refl. simpl. now apply IH.
Qed.

Lemma str_eqb_refl (a : jsstring) : str_eqb a a = true.
Proof. now apply str_eqb_eq. Qed.

Lemma str_eqb_neq (a b : jsstring) : str_eqb a b = false <-> a <> b.
Proof.
  split.
  - intros H E. apply str_eqb_eq in E. congruence.
  - intro H. destruct (str_eqb a b) eqn:E; [|reflexivity].
    apply str_eqb_eq in E. contradiction.
Qed.

Lemma str_ltb_irrefl (a : jsstring) : str_ltb a a = false.
Proof.
  induction a as [|x a IH]; simpl; [reflexivity|].
  now rewrite N.ltb_irrefl.
Qed.

Lemma str_ltb_trans (a b c : jsstring) :
  str_ltb a b = true -> str_ltb b c = true -> str_ltb a c = true.
Proof.
  revert b c; induction a as [|x a IH]; intros [|y b] [|z c]; simpl;
    try discriminate; try reflexivity.
  destruct (N.ltb_spec x y), (N.ltb_spec y x), (N.ltb_spec y z),
    (N.ltb_spec z y), (N.ltb_spec x z), (N.ltb_spec z x);
    try discriminate; try reflexivity; try lia.
  apply IH.
Qed.

(** The order is total: two different strings compare one way or the other. *)
Lemma str_ltb_total (a b : jsstring) :
  str_ltb a b = false -> a <> b -> str_ltb b a = true.
Proof.
  revert b; induction a as [|x a IH]; intros [|y b]; simpl; intros Hlt Hne;
    try reflexivity; try discriminate; try congruence.
  destruct (N.ltb_spec x y), (N.ltb_spec y x); try discriminate; try reflexivity;
    try lia.
  assert (x = y) by lia. subst.
  apply IH; [assumption|congruence].
Qed.

Lemma startsWith_spec (s p : jsstring) :
  startsWith s p = true <-> exists b, s = p ++ b.
Proof.
  revert s; induction p as [|x p IH]; intros s; simpl.
  - split; [intros _; now exists s | reflexivity].
  - destruct s as [|y s].
    + split; [discriminate | intros [b Hb]; discriminate].
    + rewrite andb_true_iff, N.eqb_eq, IH. split.
      * intros [-> [b ->]]. now exists b.
      * intros [b Hb]. injection Hb as -> ->. split; [reflexivity | now exists b].
Qed.

(** [includes] is the substring test. *)
Lemma includes_spec (s t : jsstring) :
  includes s t = true <-> exists a b, s = a ++ t ++ b.
Proof.
  induction s as [|c s IH]; simpl.
  - rewrite orb_false_r, startsWith_spec. split.
    + intros [b Hb]. now exists [], b.
    + intros [a [b Hab]]. destruct a; [now exists b|discriminate].
  - rewrite orb_true_iff, startsWith_spec, IH. split.
    + intros [[b Hb] | [a [b Hab]]].
      * now exists [], b.
      * exists (c :: a), b. simpl. now rewrite Hab.
    + intros [a [b Hab]]. destruct a as [|c' a].
      * left. now exists b.
      * right. injection Hab as _ Hab. now exists a, b.
Qed.

Lemma trimEnd_snoc (s : jsstring) (c : N) :
  isWhiteSpace c = true -> trimEnd (s ++ [c]) = trimEnd s.
Proof.
  intro Hc. unfold trimEnd. rewrite rev_app_distr. simpl. now rewrite Hc.
Qed.

(** White space at the end of a line does not survive [trim]. *)
Lemma trim_snoc (s : jsstring) (c : N) :
  isWhiteSpace c = true -> trim (s ++ [c]) = trim s.
Proof.
  intro Hc. unfold trim. induction s as [|x s IH]; simpl.
  - now rewrite Hc.
  - destruct (isWhiteSpace x) eqn:Hx; [exact IH|].
    change (x :: s ++ [c]) with ((x :: s) ++ [c]). now apply trimEnd_snoc.
Qed.

Lemma split_not_nil (s : jsstring) (sep : N) : split s sep <> [].
Proof.
  destruct s as [|c s]; simpl; [discriminate|].
  destruct (c =? sep)%N; [discriminate|].
  destruct (split s sep); discriminate.
Qed.

(** Splitting a text cut at a separator gives the pieces of both halves. *)
Lemma split_app (a b : jsstring) (sep : N) :
  split (a ++ sep :: b) sep = split a sep ++ split b sep.
Proof.
  induction a as [|c a IH]; simpl.
  - now rewrite N.eqb_refl.
  - destruct (c =? sep)%N; [now rewrite IH|].
    rewrite IH. destruct (split a sep) eqn:E; [|reflexivity].
    now apply split_not_nil in E.
Qed.

(** ** Arrays and exceptions *)

Lemma filter_subsequence {A} (f : A -> bool) (l : list A) :
  subsequence (filter f l) l.
Proof.
  induction l as [|x l IH]; simpl; [constructor|].
  destruct (f x); now constructor.
Qed.

Lemma subsequence_refl {A} (l : list A) : subsequence l l.
Proof. induction l; now constructor. Qed.

Lemma subsequence_trans {A} (a b c : list A) :
  subsequence a b -> subsequence b c -> subsequence a c.
Proof.
  intros Hab Hbc. revert a Hab.
  induction Hbc as [|x b c Hbc IH|x b c Hbc IH]; intros a Hab.
  - assumption.
  - inversion Hab; subst.
    + constructor. now apply IH.
    + apply subsequence_drop. now apply IH.
  - apply subsequence_drop. now apply IH.
Qed.

Lemma subsequence_In {A} (out l : list A) (x : A) :
  subsequence out l -> In x out -> In x l.
Proof.
  induction 1 as [|y out l H IH|y out l H IH]; simpl; intuition.
Qed.

(** [array.filter] returns when the callback returns on every element, and
    then keeps what the callback accepted. *)
Lemma Array_filter_total {A} (p : A -> result bool) (l : list A) :
  Forall (fun x => exists b, p x = Ok b) l ->
  Array_filter p l = Ok (filter (accepts p) l).
Proof.
  induction 1 as [|x l [b Hb] Hl IH]; simpl; [reflexivity|].
  replace (accepts p x) with b by (unfold accepts; now rewrite Hb).
  rewrite Hb. simpl. rewrite IH. simpl. now destruct b.
Qed.

Lemma Array_filter_Ok {A} (p : A -> result bool) (l out : list A) :
  Array_filter p l = Ok out ->
  Forall (fun x => exists b, p x = Ok b) l /\ out = filter (accepts p) l.
Proof.
  revert out; induction l as [|x l IH]; simpl; intros out H.
  - injection H as <-. split; [constructor|reflexivity].
  - destruct (p x) as [b|e] eqn:Hb; simpl in H; [|discriminate].
    destruct (Array_filter p l) as [rest|e] eqn:Hr; simpl in H; [|discriminate].
    destruct (IH rest eq_refl) as [Hl ->]. injection H as <-. split.
    + constructor; [now exists b | assumption].
    + replace (accepts p x) with b by (unfold accepts; now rewrite Hb).
      now destruct b.
Qed.

Lemma Array_filter_pure {A} (f : A -> bool) (l : list A) :
  Array_filter (fun x => Ok (f x)) l = Ok (filter f l).
Proof.
  induction l as [|x l IH]; simpl; [reflexivity|].
  rewrite IH. simpl. now destruct (f x).
Qed.

Lemma Array_includes_In (l : list jsstring) (x : jsstring) :
  Array_includes l x = true <-> In x l.
Proof.
  unfold Array_includes. rewrite existsb_exists. split.
  - intros [y [Hy E]]. apply str_eqb_eq in E. now subst.
  - intro H. exists x. split; [assumption | apply str_eqb_refl].
Qed.

Lemma indexOf_from_absent (l : list jsstring) (x : jsstring) (k : Z) :
  ~ In x l -> indexOf_from l x k = (-1)%Z.
Proof.
  revert k; induction l as [|y l IH]; simpl; intros k H; [reflexivity|].
  destruct (str_eqb y x) eqn:E.
  - apply str_eqb_eq in E. tauto.
  - apply IH. tauto.
Qed.

Lemma indexOf_from_found (l : list jsstring) (x : jsstring) (k : Z) (i : nat) :
  NoDup l -> nth_error l i = Some x ->
  indexOf_from l x k = (k + Z.of_nat i)%Z.
Proof.
  revert k i; induction l as [|y l IH]; intros k i Hnd Hi.
  - destruct i; discriminate.
  - inversion Hnd as [|? ? Hy Hl]; subst. destruct i as [|i]; simpl in *.
    + injection Hi as ->. rewrite str_eqb_refl. lia.
    + destruct (str_eqb y x) eqn:E.
      * apply str_eqb_eq in E. subst. apply nth_error_In in Hi. contradiction.
      * rewrite (IH (k + 1)%Z i Hl Hi). lia.
Qed.

Lemma In_skipn_nth_error {A} (l : list A) (i : nat) (x : A) :
  In x (skipn i l) <-> exists j, i <= j /\ nth_error l j = Some x.
Proof.
  revert i; induction l as [|y l IH]; intros i.
  - rewrite skipn_nil. split; [intros [] | intros [j [_ H]]; destruct j; discriminate].
  - destruct i as [|i]; simpl.
    + split.
      * intros [-> | H]; [exists 0; split; [lia|reflexivity]|].
        apply In_nth_error in H as [j Hj]. exists (S j). split; [lia|assumption].
      * intros [[|j] [_ Hj]]; simpl in Hj.
        -- injection Hj as ->. now left.
        -- right. eapply nth_error_In; eassumption.
    + rewrite IH. split.
      * intros [j [Hij Hj]]. exists (S j). split; [lia|assumption].
      * intros [[|j] [Hij Hj]]; [lia|]. exists j. split; [lia|assumption].
Qed.

(** ** Sorting *)

Lemma sort_insert_In (x y : jsstring) (l : list jsstring) :
  In y (sort_insert x l) <-> y = x \/ In y l.
Proof.
  induction l as [|z l IH]; simpl; [intuition|].
  destruct (str_ltb x z); simpl; [intuition|].
  rewrite IH. intuition.
Qed.

Lemma sort_In (y : jsstring) (l : list jsstring) : In y (sort l) <-> In y l.
Proof.
  induction l as [|x l IH]; simpl; [reflexivity|].
  rewrite sort_insert_In, IH. intuition.
Qed.

Lemma sort_insert_sorted (x : jsstring) (l : list jsstring) :
  ~ In x l -> StronglySorted str_lt l -> StronglySorted str_lt (sort_insert x l).
Proof.
  induction l as [|z l IH]; simpl; intros Hx Hs.
  - repeat constructor.
  - inversion Hs as [|? ? Hl Hz]; subst.
    destruct (str_ltb x z) eqn:E.
    + constructor; [assumption|]. constructor; [exact E|].
      eapply Forall_impl; [|exact Hz]. intros a Ha. eapply str_ltb_trans; eassumption.
    + assert (Hzx : str_lt z x) by (apply str_ltb_total; [assumption | intuition]).
      constructor; [apply IH; intuition|].
      apply Forall_forall. intros a Ha. apply sort_insert_In in Ha as [-> | Ha].
      * exact Hzx.
      * rewrite Forall_forall in Hz. now apply Hz.
Qed.

(** Sorting strings that are pairwise different puts them in strictly
    increasing order. *)
Lemma sort_sorted (l : list jsstring) : NoDup l -> StronglySorted str_lt (sort l).
Proof.
  induction 1 as [|x l Hx Hl IH]; simpl; [constructor|].
  apply sort_insert_sorted; [|assumption]. now rewrite sort_In.
Qed.

Lemma StronglySorted_NoDup (l : list jsstring) :
  StronglySorted str_lt l -> NoDup l.
Proof.
  induction 1 as [|x l Hl IH Hx]; constructor; [|assumption].
  intro Hin. rewrite Forall_forall in Hx. specialize (Hx x Hin).
  unfold str_lt in Hx. now rewrite str_ltb_irrefl in Hx.
Qed.

(** A strictly increasing list is determined by its elements. *)
Lemma StronglySorted_unique (l1 l2 : list jsstring) :
  StronglySorted str_lt l1 -> StronglySorted str_lt l2 ->
  (forall x, In x l1 <-> In x l2) -> l1 = l2.
Proof.
  intros H1; revert l2; induction H1 as [|x l1 Hl1 IH Hx]; intros l2 H2 Heq.
  - destruct l2 as [|y l2]; [reflexivity|]. destruct (proj2 (Heq y)); now left.
  - destruct H2 as [|y l2 Hl2 Hy].
    + destruct (proj1 (Heq x)); now left.
    + rewrite Forall_forall in Hx, Hy.
      assert (x = y) as ->.
      { destruct (proj1 (Heq x) (or_introl eq_refl)) as [E | Hin]; [now symmetry|].
        destruct (proj2 (Heq y) (or_introl eq_refl)) as [E | Hin']; [assumption|].
        pose proof (Hx _ Hin') as A. pose proof (Hy _ Hin) as B.
        pose proof (str_ltb_trans _ _ _ A B) as C.
        now rewrite str_ltb_irrefl in C. }
      f_equal. apply IH; [assumption|]. intro z. split; intro Hz.
      * destruct (proj1 (Heq z) (or_intror Hz)) as [E | Hin]; [|assumption].
        subst. pose proof (Hx _ Hz) as A. unfold str_lt in A.
        now rewrite str_ltb_irrefl in A.
      * destruct (proj2 (Heq z) (or_intror Hz)) as [E | Hin]; [|assumption].
        subst. pose proof (Hy _ Hz) as A. unfold str_lt in A.
        now rewrite str_ltb_irrefl in A.
Qed.

Lemma Set_add_In (levels : list jsstring) (x y : jsstring) :
  In y (Set_add levels x) <-> In y levels \/ y = x.
Proof.
  unfold Set_add. destruct (Array_includes levels x) eqn:E.
  - apply Array_includes_In in E. split; [auto | intros [H | ->]; assumption].
  - rewrite in_app_iff. simpl. intuition.
Qed.

Lemma Set_add_NoDup (levels : list jsstring) (x : jsstring) :
  NoDup levels -> NoDup (Set_add levels x).
Proof.
  intro H. unfold Set_add. destruct (Array_includes levels x) eqn:E; [assumption|].
  assert (~ In x levels) as Hx.
  { intro Hin. apply Array_includes_In in Hin. congruence. }
  clear E. induction H as [|z l Hz Hl IH]; simpl.
  - repeat constructor. intros [].
  - constructor.
    + rewrite in_app_iff. simpl. simpl in Hx. intuition.
    + apply IH. simpl in Hx. intuition.
Qed.

(** ** Extraction *)

Section Extraction.

Context {host : Host}.
Variable JSON_parse : jsstring -> result record.

Let empty : extraction := {| jsonObjects := []; ignoredLines := 0 |}.
Let step := extract_line JSON_parse.

Lemma extraction_append_empty_r (a : extraction) : extraction_append a empty = a.
Proof.
  destruct a as [objs n]. unfold extraction_append. simpl.
  now rewrite app_nil_r, Nat.add_0_r.
Qed.

Lemma extraction_append_assoc (a b c : extraction) :
  extraction_append (extraction_append a b) c
  = extraction_append a (extraction_append b c).
Proof.
  unfold extraction_append. simpl. now rewrite app_assoc, Nat.add_assoc.
Qed.

(** What a line adds does not depend on what was read before it. *)
Lemma extract_line_append (acc : extraction) (line : jsstring) :
  step acc line = extraction_append acc (step empty line).
Proof.
  unfold step, extract_line.
  destruct (startsWith (trim line) (str "{") && endsWith (trim line) (str "}")).
  - destruct (JSON_parse (trim line)); unfold extraction_append; simpl;
      now rewrite ?Nat.add_0_r, ?app_nil_r.
  - destruct (0 <? List.length (trim line)).
    + unfold extraction_append. simpl. now rewrite app_nil_r.
    + symmetry. apply extraction_append_empty_r.
Qed.

Lemma fold_extract_line_append (lines : list jsstring) (acc : extraction) :
  fold_left step lines acc = extraction_append acc (fold_left step lines empty).
Proof.
  revert acc; induction lines as [|l lines IH]; intros acc; simpl.
  - symmetry. apply extraction_append_empty_r.
  - rewrite IH. rewrite (IH (step empty l)).
    rewrite (extract_line_append acc l). apply extraction_append_assoc.
Qed.

Lemma extractJsonObjects_app (a b : jsstring) :
  extractJsonObjects JSON_parse (a ++ [0x0A%N] ++ b)
  = extraction_append (extractJsonObjects JSON_parse a)
      (extractJsonObjects JSON_parse b).
Proof.
  unfold extractJsonObjects. simpl. rewrite split_app, fold_left_app.
  apply fold_extract_line_append.
Qed.

Lemma startsWith_brace_nonempty (s : jsstring) :
  startsWith s (str "{") = true -> is_empty s = false.
Proof. destruct s; [discriminate | reflexivity]. Qed.

Lemma length_pos_nonempty (s : jsstring) :
  (0 <? List.length s) = negb (is_empty s).
Proof. destruct s; reflexivity. Qed.

(** A line that is not blank adds one record or one ignored line; a blank
    line adds nothing. *)
Lemma extract_line_cases (acc : extraction) (line : jsstring) :
  if nonBlank line then
    (exists jsonObj, JSON_parse (trim line) = Ok jsonObj
       /\ step acc line = {| jsonObjects := jsonObjects acc ++ [jsonObj];
                             ignoredLines := ignoredLines acc |})
    \/ step acc line = {| jsonObjects := jsonObjects acc;
                          ignoredLines := ignoredLines acc + 1 |}
  else step acc line = acc.
Proof.
  unfold step, extract_line, nonBlank.
  destruct (startsWith (trim line) (str "{")) eqn:Hs; simpl.
  - rewrite (startsWith_brace_nonempty _ Hs). simpl.
    destruct (endsWith (trim line) (str "}")).
    + destruct (JSON_parse (trim line)) as [jsonObj|e]; [left; now exists jsonObj|now right].
    + rewrite length_pos_nonempty, (startsWith_brace_nonempty _ Hs). now right.
  - rewrite length_pos_nonempty. destruct (is_empty (trim line)); simpl; [reflexivity|now right].
Qed.

Lemma fold_extract_line_count (lines : list jsstring) (acc : extraction) :
  List.length (jsonObjects (fold_left step lines acc))
  + ignoredLines (fold_left step lines acc)
  = List.length (jsonObjects acc) + ignoredLines acc
    + List.length (filter nonBlank lines).
Proof.
  revert acc; induction lines as [|l lines IH]; intros acc; simpl; [lia|].
  rewrite IH. pose proof (extract_line_cases acc l) as H.
  destruct (nonBlank l); simpl.
  - destruct H as [[jsonObj [_ ->]] | ->]; simpl; [rewrite length_app; simpl|]; lia.
  - rewrite H. lia.
Qed.

(** Only the trimmed line matters. *)
Lemma extract_line_trim (acc : extraction) (l l' : jsstring) :
  trim l' = trim l -> step acc l' = step acc l.
Proof. intro H. unfold step, extract_line. now rewrite H. Qed.

Lemma fold_extract_line_trim (ls ls' : list jsstring) (acc : extraction) :
  Forall2 (fun l l' => trim l' = trim l) ls ls' ->
  fold_left step ls' acc = fold_left step ls acc.
Proof.
  intro H. revert acc. induction H as [|l l' ls ls' Hl Hls IH]; intros acc; simpl.
  - reflexivity.
  - rewrite (extract_line_trim acc _ _ Hl). apply IH.
Qed.

(** The lines of the text with Windows line ends are the lines of the text,
    each possibly followed by a carriage return. *)
Lemma split_crlf (content : jsstring) :
  Forall2 (fun l l' => l' = l \/ l' = l ++ [0x0D%N])
    (split content 0x0A%N) (split (crlf content) 0x0A%N).
Proof.
  induction content as [|c content IH]; simpl.
  - constructor; [now left | constructor].
  - destruct (c =? 0x0A)%N eqn:Hc; simpl.
    + constructor; [now right | exact IH].
    + rewrite Hc. destruct IH as [|l l' ls ls' Hl Hls].
      * repeat constructor.
      * constructor; [|assumption].
        destruct Hl as [-> | ->]; [now left | now right].
Qed.

(** C7: the records and the ignored lines of [extractJsonObjects] account for
    the non-blank lines of the text, each exactly once.  The number of records
    plus [ignoredLines] is the number of lines that are not empty once
    trimmed; a line that is not blank adds one record (its text parsed) or one
    ignored line, a blank line adds neither; and the empty text gives no
    record and [ignoredLines = 0]. *)
Theorem extract_counts_nonblank_lines (content : jsstring) :
  List.length (jsonObjects (extractJsonObjects JSON_parse content))
  + ignoredLines (extractJsonObjects JSON_parse content)
  = nonBlankLineCount content
  /\ (forall acc line,
        if nonBlank line then
          (exists jsonObj, JSON_parse (trim line) = Ok jsonObj
             /\ extract_line JSON_parse acc line
                = {| jsonObjects := jsonObjects acc ++ [jsonObj];
                     ignoredLines := ignoredLines acc |})
          \/ extract_line JSON_parse acc line
             = {| jsonObjects := jsonObjects acc;
                  ignoredLines := ignoredLines acc + 1 |}
        else extract_line JSON_parse acc line = acc)
  /\ extractJsonObjects JSON_parse (str "")
     = {| jsonObjects := []; ignoredLines := 0 |}.
Proof.
  split; [|split].
  - exact (fold_extract_line_count (split content 0x0A%N) empty).
  - intros acc line. apply extract_line_cases.
  - reflexivity.
Qed.

(** C10: [extractJsonObjects] does not see Windows line ends.  Replacing every
    line feed of a text by carriage return and line feed leaves the result the
    same, records and [ignoredLines] alike, since the carriage return left at
    the end of a line is stripped by [trim] before the line is looked at.  This
    holds for every text, in particular for those with no carriage return. *)
Theorem extract_crlf_insensitive (content : jsstring) :
  extractJsonObjects JSON_parse (crlf content)
  = extractJsonObjects JSON_parse content.
Proof.
  unfold extractJsonObjects. apply fold_extract_line_trim.
  eapply Forall2_impl; [|apply split_crlf].
  intros l l' [-> | ->]; [reflexivity|].
  now apply trim_snoc.
Qed.

(** C2, as the code has it: [extractJsonObjects] never joins lines.  The
    result on two texts put one after the other with a line feed between them
    is the result on the first followed by the result on the second, so each
    line is classified on its own; and the three lines [{], ["a":1] and [}] of
    a pretty-printed object give no record and three ignored lines, whatever
    [JSON.parse] accepts (none of the three both starts with [{] and ends with
    [}], so none is parsed). *)
Theorem extract_never_joins_lines :
  (forall a b,
      extractJsonObjects JSON_parse (a ++ [0x0A%N] ++ b)
      = extraction_append (extractJsonObjects JSON_parse a)
          (extractJsonObjects JSON_parse b))
  /\ split pretty_printed 0x0A%N
     = [str "{"; [0x22%N] ++ str "a" ++ [0x22%N] ++ str ":1"; str "}"]
  /\ extractJsonObjects JSON_parse pretty_printed
     = {| jsonObjects := []; ignoredLines := 3 |}.
Proof.
  split; [|split].
  - apply extractJsonObjects_app.
  - vm_compute. reflexivity.
  - vm_compute. reflexivity.
Qed.

End Extraction.

(** ** Level resolution and the catalog *)

Section Levels.

Context {host : Host}.

Lemma getLogLevel_unfold (log : record) :
  getLogLevel log
  = (level <- levelField log ;;
     if ToBoolean level then s <- toString level ;; Ok (toUpperCase s)
     else Ok (str "UNKNOWN")).
Proof. reflexivity. Qed.

(** On an object the chain of [||] yields the first truthy field, or the
    value of the last one. *)
Lemma levelField_JObject (props : list (jsstring * record)) :
  levelField (JObject props)
  = Ok (if ToBoolean (own props (str "level")) then own props (str "level")
        else if ToBoolean (own props (str "severity")) then own props (str "severity")
        else if ToBoolean (own props (str "log_level")) then own props (str "log_level")
        else own props (str "logLevel")).
Proof.
  unfold levelField, or_else, Get. cbn [bind].
  destruct (ToBoolean (own props (str "level"))) eqn:Ha; cbn [bind].
  - repeat (rewrite Ha; cbn [bind]). reflexivity.
  - destruct (ToBoolean (own props (str "severity"))) eqn:Hb; cbn [bind].
    + repeat (rewrite Hb; cbn [bind]). reflexivity.
    + destruct (ToBoolean (own props (str "log_level"))); reflexivity.
Qed.

Lemma toString_truthy (v : record) :
  ToBoolean (Some v) = true -> toString (Some v) = ToString v.
Proof. destruct v; simpl; intro H; try reflexivity. discriminate. Qed.

Lemma getLogLevel_truthy (props : list (jsstring * record)) (v : record) :
  levelField (JObject props) = Ok (Some v) -> ToBoolean (Some v) = true ->
  getLogLevel (JObject props) = (s <- ToString v ;; Ok (toUpperCase s)).
Proof.
  intros H Hv. rewrite getLogLevel_unfold, H. cbn [bind].
  rewrite Hv. now rewrite (toString_truthy v Hv).
Qed.

(** A record that is not an object has no level, and [null] has no
    properties to read. *)
Lemma getLogLevel_not_object (log : record) :
  match log with
  | JObject _ => True
  | JNull => getLogLevel log = Throw TypeError
  | _ => getLogLevel log = Ok (str "UNKNOWN")
  end.
Proof. destruct log; reflexivity || exact I. Qed.

(** [getLogLevel] returns on every object whose level fields hold strings,
    numbers, booleans or [null]: converting such a value to text cannot fail. *)
Lemma primitive_levels_resolve (props : list (jsstring * record)) :
  (forall k v, In k levelFields -> own props k = Some v -> primitive v = true) ->
  resolves (JObject props).
Proof.
  intro Hprim. unfold resolves. rewrite getLogLevel_unfold, levelField_JObject.
  cbn [bind].
  assert (Hfield : forall k,
             In k levelFields ->
             ToBoolean (own props k) = true ->
             exists s, toString (own props k) = Ok s).
  { intros k Hk Htruthy. destruct (own props k) as [v|] eqn:Hv; [|discriminate].
    specialize (Hprim k v Hk Hv).
    destruct v; try discriminate; simpl; eauto. }
  unfold levelFields in Hfield. cbn [In] in Hfield.
  destruct (ToBoolean (own props (str "level"))) eqn:Ha.
  { rewrite Ha. destruct (Hfield (str "level")) as [s ->]; [tauto | assumption |].
    cbn [bind]. eauto. }
  destruct (ToBoolean (own props (str "severity"))) eqn:Hb.
  { rewrite Hb. destruct (Hfield (str "severity")) as [s ->]; [tauto | assumption |].
    cbn [bind]. eauto. }
  destruct (ToBoolean (own props (str "log_level"))) eqn:Hc.
  { rewrite Hc. destruct (Hfield (str "log_level")) as [s ->]; [tauto | assumption |].
    cbn [bind]. eauto. }
  destruct (ToBoolean (own props (str "logLevel"))) eqn:Hd; [|eauto].
  destruct (Hfield (str "logLevel")) as [s ->]; [tauto | assumption |].
  cbn [bind]. eauto.
Qed.

(** The step of the loop of [extractLevels]. *)
Let addLevel (levels : list jsstring) (log : record) : result (list jsstring) :=
  level <- levelField log ;;
  if ToBoolean level then s <- toString level ;; Ok (Set_add levels (toUpperCase s))
  else Ok levels.

Lemma extractLevels_unfold (logs : list record) :
  extractLevels logs
  = (levels <- foldM addLevel logs [] ;; Ok (str "ALL" :: sort levels)).
Proof. reflexivity. Qed.

(** The loop adds to the set what [getLogLevel] answers on a record that has
    a level of its own, and fails where [getLogLevel] fails. *)
Lemma addLevel_getLogLevel (levels : list jsstring) (log : record) :
  addLevel levels log
  = (label <- getLogLevel log ;;
     Ok (if hasLevel log then Set_add levels label else levels)).
Proof.
  unfold addLevel, hasLevel. rewrite getLogLevel_unfold.
  destruct (levelField log) as [level|e]; simpl; [|reflexivity].
  destruct (ToBoolean level); simpl; [|reflexivity].
  destruct (toString level); reflexivity.
Qed.

Lemma foldM_addLevel_Ok (logs : list record) (acc out : list jsstring) :
  foldM addLevel logs acc = Ok out -> NoDup acc ->
  NoDup out
  /\ Forall resolves logs
  /\ forall l, In l out
       <-> In l acc
           \/ exists log, In log logs /\ hasLevel log = true /\ getLogLevel log = Ok l.
Proof.
  revert acc; induction logs as [|log logs IH]; simpl; intros acc H Hnd.
  - injection H as <-. split; [assumption|]. split; [constructor|].
    intro l. split; [auto | intros [Hl | [log [[] _]]]; assumption].
  - rewrite addLevel_getLogLevel in H.
    destruct (getLogLevel log) as [label|e] eqn:Hlabel; simpl in H; [|discriminate].
    destruct (hasLevel log) eqn:Hhas.
    + destruct (IH _ H (Set_add_NoDup label Hnd)) as [Hout [Hres Hin]].
      split; [assumption|]. split; [constructor; [now exists label | assumption]|].
      intro l. rewrite Hin, Set_add_In. split.
      * intros [[Hl | ->] | [log' [Hlog' Hrest]]].
        -- now left.
        -- right. exists log. auto.
        -- right. exists log'. tauto.
      * intros [Hl | [log' [[<- | Hlog'] [Hh Hg]]]].
        -- left. now left.
        -- left. right. congruence.
        -- right. exists log'. tauto.
    + destruct (IH _ H Hnd) as [Hout [Hres Hin]].
      split; [assumption|]. split; [constructor; [now exists label | assumption]|].
      intro l. rewrite Hin. split.
      * intros [Hl | [log' [Hlog' Hrest]]]; [now left|].
        right. exists log'. tauto.
      * intros [Hl | [log' [[<- | Hlog'] [Hh Hg]]]]; [now left | congruence |].
        right. exists log'. tauto.
Qed.

Lemma foldM_addLevel_total (logs : list record) (acc : list jsstring) :
  Forall resolves logs -> exists out, foldM addLevel logs acc = Ok out.
Proof.
  intro H. revert acc. induction H as [|log logs [label Hlabel] Hlogs IH]; intros acc; simpl.
  - now exists acc.
  - rewrite addLevel_getLogLevel, Hlabel. simpl. apply IH.
Qed.

(** What [extractLevels] lists, and that it returns only where [getLogLevel]
    returns on every record. *)
Lemma extractLevels_Ok_labels (logs : list record) (out : list jsstring) :
  extractLevels logs = Ok out ->
  Forall resolves logs
  /\ exists levels,
       out = str "ALL" :: sort levels
       /\ NoDup levels
       /\ forall l, In l levels
            <-> exists log,
                  In log logs /\ hasLevel log = true /\ getLogLevel log = Ok l.
Proof.
  intro H. rewrite extractLevels_unfold in H.
  destruct (foldM addLevel logs []) as [levels|e] eqn:Hfold; simpl in H;
    [|discriminate].
  injection H as <-.
  destruct (foldM_addLevel_Ok logs Hfold (NoDup_nil _)) as [Hnd [Hres Hin]].
  split; [exact Hres|]. exists levels. split; [reflexivity|]. split; [exact Hnd|].
  intro l. rewrite Hin. simpl. tauto.
Qed.

Lemma extractLevels_returns (logs : list record) :
  Forall resolves logs -> exists out, extractLevels logs = Ok out.
Proof.
  intro H. destruct (foldM_addLevel_total [] H) as [levels Hfold].
  exists (str "ALL" :: sort levels). now rewrite extractLevels_unfold, Hfold.
Qed.

(** A record with no level of its own, when [getLogLevel] returns on it, is
    labelled ["UNKNOWN"]. *)
Lemma getLogLevel_without_level (log : record) (label : jsstring) :
  hasLevel log = false -> getLogLevel log = Ok label -> label = str "UNKNOWN".
Proof.
  unfold hasLevel. rewrite getLogLevel_unfold.
  destruct (levelField log) as [level|e]; cbn [bind]; [|discriminate].
  intros ->. intro H. now injection H as <-.
Qed.

(** C3, as the code has it: [getLogLevel] looks at [level], [severity],
    [log_level] and [logLevel] in this order and takes the first whose value
    is truthy, that is, present and none of [null], [false], a zero or NaN
    number, or the empty string.  That value is converted to text and
    upper-cased (a conversion that fails makes [getLogLevel] fail).  When none
    of the four fields is truthy the result is ["UNKNOWN"].  So
    [{severity: "warn"}] gives ["WARN"], [{}] gives ["UNKNOWN"], and
    [{level: "INFO", severity: "ERROR"}] gives ["INFO"]. *)
Theorem getLogLevel_first_truthy_field (props : list (jsstring * record)) :
  (forall i k v,
      nth_error levelFields i = Some k ->
      own props k = Some v ->
      ToBoolean (Some v) = true ->
      (forall j k', j < i -> nth_error levelFields j = Some k' ->
                    ToBoolean (own props k') = false) ->
      getLogLevel (JObject props) = (s <- ToString v ;; Ok (toUpperCase s)))
  /\ ((forall k, In k levelFields -> ToBoolean (own props k) = false) ->
      getLogLevel (JObject props) = Ok (str "UNKNOWN"))
  /\ getLogLevel (field "severity" (JString (str "warn"))) = Ok (str "WARN")
  /\ getLogLevel (JObject []) = Ok (str "UNKNOWN")
  /\ getLogLevel (JObject [(str "level", JString (str "INFO"));
                           (str "severity", JString (str "ERROR"))])
     = Ok (str "INFO").
Proof.
  split; [|split; [|repeat split]].
  - intros i k v Hk Hv Htruthy Hbefore.
    apply getLogLevel_truthy; [|assumption].
    rewrite levelField_JObject.
    assert (H0 : 0 < i -> ToBoolean (own props (str "level")) = false)
      by (intro; now apply (Hbefore 0 _)).
    assert (H1 : 1 < i -> ToBoolean (own props (str "severity")) = false)
      by (intro; now apply (Hbefore 1 _)).
    assert (H2 : 2 < i -> ToBoolean (own props (str "log_level")) = false)
      by (intro; now apply (Hbefore 2 _)).
    unfold levelFields in Hk.
    destruct i as [|[|[|[|i]]]]; cbn [nth_error] in Hk;
      [ | | | | destruct i; discriminate ];
      injection Hk as <-;
      rewrite ?H0, ?H1, ?H2 by lia; rewrite Hv; now rewrite ?Htruthy.
  - intro Hnone. rewrite getLogLevel_unfold, levelField_JObject.
    assert (Ha := Hnone (str "level")). assert (Hb := Hnone (str "severity")).
    assert (Hc := Hnone (str "log_level")). assert (Hd := Hnone (str "logLevel")).
    unfold levelFields in Ha, Hb, Hc, Hd. cbn [In] in Ha, Hb, Hc, Hd.
    rewrite Ha, Hb, Hc by tauto. cbn [bind]. now rewrite Hd by tauto.
Qed.

(** C1, as the code has it: [extractLevels] returns ["ALL"] followed by the
    labels of the records that have a level of their own (one of the four
    fields truthy), each once and in increasing order of the string
    comparison, and it is the only list so ordered with these labels; a record
    with no level adds nothing, so ["UNKNOWN"] is listed only when some
    record's level reads so.  The result begins with ["ALL"] and the labels
    after it are pairwise different.  [extractLevels] returns exactly when
    [getLogLevel] returns on every record. *)
Theorem extractLevels_labels_of_leveled_records (logs : list record) :
  (forall out, extractLevels logs = Ok out ->
     exists levels,
       out = str "ALL" :: levels
       /\ StronglySorted str_lt levels
       /\ NoDup levels
       /\ (forall l, In l levels
             <-> exists log,
                   In log logs /\ hasLevel log = true /\ getLogLevel log = Ok l)
       /\ forall sorted,
            StronglySorted str_lt sorted ->
            (forall l, In l sorted
               <-> exists log,
                     In log logs /\ hasLevel log = true /\ getLogLevel log = Ok l) ->
            levels = sorted)
  /\ ((exists out, extractLevels logs = Ok out) <-> Forall resolves logs).
Proof.
  split.
  - intros out H. rewrite extractLevels_unfold in H.
    destruct (foldM addLevel logs []) as [levels|e] eqn:Hfold; simpl in H;
      [|discriminate].
    injection H as <-.
    destruct (foldM_addLevel_Ok logs Hfold (NoDup_nil _)) as [Hnd [_ Hin]].
    exists (sort levels). split; [reflexivity|].
    split; [now apply sort_sorted|].
    split; [apply StronglySorted_NoDup; now apply sort_sorted|].
    assert (Hlabels : forall l, In l (sort levels)
              <-> exists log,
                    In log logs /\ hasLevel log = true /\ getLogLevel log = Ok l).
    { intro l. rewrite sort_In, Hin. simpl. tauto. }
    split; [exact Hlabels|].
    intros sorted Hsorted Hsame. apply StronglySorted_unique.
    + now apply sort_sorted.
    + assumption.
    + intro l. now rewrite Hlabels, Hsame.
  - split.
    + intros [out H]. rewrite extractLevels_unfold in H.
      destruct (foldM addLevel logs []) as [levels|e] eqn:Hfold; simpl in H;
        [|discriminate].
      now destruct (foldM_addLevel_Ok logs Hfold (NoDup_nil _)) as [_ [Hres _]].
    + intro H. destruct (foldM_addLevel_total [] H) as [levels Hfold].
      exists (str "ALL" :: sort levels). rewrite extractLevels_unfold, Hfold.
      reflexivity.
Qed.

(** X1: a record whose own level reads ["ALL"] once upper-cased (say
    [{"level":"all"}]) puts a second ["ALL"] in the catalog, after the one
    [extractLevels] always writes first. *)
Theorem extractLevels_lists_ALL_twice (logs : list record) (out : list jsstring) :
  extractLevels logs = Ok out ->
  (exists log, In log logs /\ hasLevel log = true /\ getLogLevel log = Ok (str "ALL")) ->
  exists rest, out = str "ALL" :: rest /\ In (str "ALL") rest.
Proof.
  intros H Hlog. rewrite extractLevels_unfold in H.
  destruct (foldM addLevel logs []) as [levels|e] eqn:Hfold; simpl in H;
    [|discriminate].
  injection H as <-.
  destruct (foldM_addLevel_Ok logs Hfold (NoDup_nil _)) as [_ [_ Hin]].
  exists (sort levels). split; [reflexivity|].
  apply sort_In, Hin. now right.
Qed.


End Levels.

(** ** Filtering *)

Lemma bind_Ok_r {A} (r : result A) : (x <- r ;; Ok x) = r.
Proof. now destruct r. Qed.

Lemma lowerAscii_upperAscii (c : N) : lowerAscii (upperAscii c) = lowerAscii c.
Proof.
  unfold lowerAscii, upperAscii.
  destruct (N.leb_spec 0x61 c), (N.leb_spec c 0x7A); simpl;
    try reflexivity.
  destruct (N.leb_spec 0x41 (c - 0x20)), (N.leb_spec (c - 0x20) 0x5A),
    (N.leb_spec 0x41 c), (N.leb_spec c 0x5A); simpl; lia.
Qed.

Lemma isAscii_upperAscii (c : N) : isAscii c = true -> isAscii (upperAscii c) = true.
Proof.
  unfold isAscii, upperAscii. rewrite !N.ltb_lt.
  destruct (N.leb_spec 0x61 c), (N.leb_spec c 0x7A); simpl; lia.
Qed.

Section Filtering.

Context {host : Host}.

Lemma NoDup_levelHierarchy : NoDup levelHierarchy.
Proof.
  unfold levelHierarchy.
  repeat (constructor; [cbv; intuition discriminate|]). constructor.
Qed.

Lemma ALL_not_in_levelHierarchy : ~ In (str "ALL") levelHierarchy.
Proof. cbv. intuition discriminate. Qed.

(** For ASCII text, lower-casing forgets an upper-casing done before. *)
Lemma toLowerCase_toUpperCase (s : jsstring) :
  forallb isAscii s = true -> toLowerCase (toUpperCase s) = toLowerCase s.
Proof.
  intro H. unfold toLowerCase, toUpperCase. rewrite H.
  assert (forallb isAscii (map upperAscii s) = true) as ->.
  { rewrite forallb_forall in *. intros c Hc. apply in_map_iff in Hc as [d [<- Hd]].
    apply isAscii_upperAscii. now apply H. }
  rewrite map_map. apply map_ext. intro c. apply lowerAscii_upperAscii.
Qed.

(** With ["ALL"] selected only the search is applied. *)
Lemma filtered_ALL (logs : list record) (term : jsstring) :
  filtered logs term (str "ALL")
  = Ok (if is_empty term then logs
        else filter (fun log =>
               includes (toLowerCase (JSON_stringify log)) (toLowerCase term)) logs).
Proof.
  unfold filtered. rewrite str_eqb_refl. cbn [negb bind].
  destruct (is_empty term); cbn [negb]; [reflexivity|].
  apply Array_filter_pure.
Qed.

(** The level is applied first, to all the records; the search then runs on
    what the level let through. *)
Lemma filtered_stages (logs : list record) (term level : jsstring) :
  filtered logs term level
  = (mid <- filtered logs [] level ;; filtered mid term (str "ALL")).
Proof.
  unfold filtered at 1 2. cbn [is_empty negb].
  rewrite bind_Ok_r.
  destruct (if negb (str_eqb level (str "ALL")) then _ else _) as [mid|e];
    cbn [bind]; [|reflexivity].
  unfold filtered. rewrite str_eqb_refl. reflexivity.
Qed.

Lemma filtered_level_floor (i : nat) (selected : jsstring) (logs : list record) :
  nth_error levelHierarchy i = Some selected ->
  filtered logs [] selected
  = Array_filter (fun log =>
      logLevel <- getLogLevel log ;;
      Ok (Array_includes (skipn i levelHierarchy) logLevel)) logs.
Proof.
  intro Hi. unfold filtered.
  assert (str_eqb selected (str "ALL") = false) as ->.
  { apply str_eqb_neq. intros ->. apply ALL_not_in_levelHierarchy.
    eapply nth_error_In; eassumption. }
  cbn [negb is_empty]. rewrite bind_Ok_r. cbv zeta.
  unfold indexOf. rewrite (indexOf_from_found 0 i NoDup_levelHierarchy Hi).
  assert ((0 + Z.of_nat i =? -1)%Z = false) as -> by (apply Z.eqb_neq; lia).
  cbn [negb]. unfold slice. now rewrite Z.add_0_l, Nat2Z.id.
Qed.

Lemma filtered_level_exact (selected : jsstring) (logs : list record) :
  selected <> str "ALL" -> ~ In selected levelHierarchy ->
  filtered logs [] selected
  = Array_filter (fun log =>
      logLevel <- getLogLevel log ;; Ok (str_eqb logLevel selected)) logs.
Proof.
  intros HALL Hin. unfold filtered.
  assert (str_eqb selected (str "ALL") = false) as -> by now apply str_eqb_neq.
  cbn [negb is_empty]. rewrite bind_Ok_r. cbv zeta.
  unfold indexOf. rewrite (indexOf_from_absent _ _ 0 Hin). reflexivity.
Qed.

(** A callback that first resolves the label returns where [getLogLevel] does. *)
Lemma label_callback_total (f : jsstring -> bool) (logs : list record) :
  Forall resolves logs ->
  Forall (fun log => exists b,
            (logLevel <- getLogLevel log ;; Ok (f logLevel)) = Ok b) logs.
Proof.
  apply Forall_impl. intros log [label H]. exists (f label). now rewrite H.
Qed.

Lemma label_callback_resolves (f : jsstring -> bool) (logs : list record) :
  Forall (fun log => exists b,
            (logLevel <- getLogLevel log ;; Ok (f logLevel)) = Ok b) logs ->
  Forall resolves logs.
Proof.
  apply Forall_impl. intros log [b H].
  destruct (getLogLevel log) as [label|e] eqn:E; [now exists label | discriminate].
Qed.

Lemma accepts_label_callback (f : jsstring -> bool) (log : record) :
  accepts (fun log => logLevel <- getLogLevel log ;; Ok (f logLevel)) log = true
  <-> exists label, getLogLevel log = Ok label /\ f label = true.
Proof.
  unfold accepts. destruct (getLogLevel log) as [label|e]; cbn [bind].
  - split; [intro H; now exists label | intros [l [E H]]; congruence].
  - split; [discriminate | intros [l [E _]]; discriminate].
Qed.

(** C4: the hierarchical level filter.  When the selected level stands in
    [levelHierarchy] at position [i], a record passes the level test exactly
    when its label, as [getLogLevel] resolves it, stands in the hierarchy at
    position [i] or later: the records kept are those, in the order of the
    input, and the filter returns whenever [getLogLevel] returns on every
    record.  A search term is applied after the level, on what passed.  With
    ["ALL"] selected every record passes.  With ["WARN"] selected and no
    search term, of five records labelled DEBUG, INFO, WARN, ERROR and FATAL
    the last three are returned, in that order. *)
Theorem filtered_level_is_minimum_severity (i : nat) (selected : jsstring) :
  nth_error levelHierarchy i = Some selected ->
  exists pass : record -> bool,
    (forall log, pass log = true <-> atLeast i log)
    /\ (forall logs out,
          filtered logs [] selected = Ok out -> out = filter pass logs)
    /\ (forall logs,
          Forall resolves logs -> filtered logs [] selected = Ok (filter pass logs))
    /\ (forall logs term,
          filtered logs term selected
          = (mid <- filtered logs [] selected ;; filtered mid term (str "ALL")))
    /\ (forall logs, filtered logs [] (str "ALL") = Ok logs)
    /\ filtered [leveled "debug"; leveled "Info"; leveled "WARN"; leveled "error";
                 leveled "Fatal"] [] (str "WARN")
       = Ok [leveled "WARN"; leveled "error"; leveled "Fatal"].
Proof.
  intro Hi.
  exists (accepts (fun log =>
            logLevel <- getLogLevel log ;;
            Ok (Array_includes (skipn i levelHierarchy) logLevel))).
  split; [|split; [|split; [|split; [|split]]]].
  - intro log. rewrite accepts_label_callback. unfold atLeast. split.
    + intros [label [Hlabel Hin]]. apply Array_includes_In in Hin.
      apply In_skipn_nth_error in Hin as [j [Hij Hj]]. now exists label, j.
    + intros [label [j [Hlabel [Hj Hij]]]]. exists label. split; [assumption|].
      apply Array_includes_In, In_skipn_nth_error. now exists j.
  - intros logs out H. rewrite (filtered_level_floor _ _ Hi) in H.
    now apply Array_filter_Ok in H.
  - intros logs Hres. rewrite (filtered_level_floor _ _ Hi).
    apply Array_filter_total. now apply label_callback_total.
  - intros logs term. apply filtered_stages.
  - intro logs. apply filtered_ALL.
  - vm_compute. reflexivity.
Qed.

(** C5: a selected level outside the hierarchy.  When the selected level is
    not ["ALL"] and does not stand in [levelHierarchy], a record passes the
    level test exactly when its label, as [getLogLevel] resolves it, is the
    selected level: the records kept are those, in the order of the input, and
    the filter returns whenever [getLogLevel] returns on every record.  With
    ["SUCCESS"] selected, of records labelled INFO, SUCCESS and INFO only the
    second is returned. *)
Theorem filtered_level_outside_hierarchy_is_exact_match (selected : jsstring) :
  selected <> str "ALL" ->
  ~ In selected levelHierarchy ->
  exists pass : record -> bool,
    (forall log, pass log = true <-> getLogLevel log = Ok selected)
    /\ (forall logs out,
          filtered logs [] selected = Ok out -> out = filter pass logs)
    /\ (forall logs,
          Forall resolves logs -> filtered logs [] selected = Ok (filter pass logs))
    /\ (forall logs term,
          filtered logs term selected
          = (mid <- filtered logs [] selected ;; filtered mid term (str "ALL")))
    /\ filtered [leveled "info"; leveled "success"; leveled "INFO"] []
         (str "SUCCESS")
       = Ok [leveled "success"].
Proof.
  intros HALL Hout.
  exists (accepts (fun log =>
            logLevel <- getLogLevel log ;; Ok (str_eqb logLevel selected))).
  split; [|split; [|split; [|split]]].
  - intro log. rewrite accepts_label_callback. split.
    + intros [label [Hlabel E]]. apply str_eqb_eq in E. now subst.
    + intro H. exists selected. split; [assumption | apply str_eqb_refl].
  - intros logs out H. rewrite (filtered_level_exact _ HALL Hout) in H.
    now apply Array_filter_Ok in H.
  - intros logs Hres. rewrite (filtered_level_exact _ HALL Hout).
    apply Array_filter_total.
    now apply (label_callback_total (fun l => str_eqb l selected)).
  - intros logs term. apply filtered_stages.
  - vm_compute. reflexivity.
Qed.

(** C6: the search.  With an empty search term every record passes.  With
    any other term a record passes exactly when the lower-cased term occurs in
    the lower-cased [JSON.stringify] text of the whole record; the search runs
    on the records the level let through and keeps their order.  The match
    ignores the case of an ASCII term, and reaches nested values: with
    ["ALL"] selected the record [{"data":{"x":"Boom"}}] is returned for the
    term ["boom"], and [{"Flag":true}] is returned for ["flag"] and for
    ["TRUE"] and not for ["false"]. *)
Theorem filtered_search_is_substring_of_json_text (term : jsstring) :
  (forall logs, filtered logs [] (str "ALL") = Ok logs)
  /\ (forall logs level,
        filtered logs term level
        = (mid <- filtered logs [] level ;; filtered mid term (str "ALL")))
  /\ (term <> [] ->
      exists pass : record -> bool,
        (forall log, pass log = true <-> mentions term log)
        /\ forall logs, filtered logs term (str "ALL") = Ok (filter pass logs))
  /\ (forallb isAscii term = true ->
      forall logs,
        filtered logs (toUpperCase term) (str "ALL") = filtered logs term (str "ALL"))
  /\ filtered [field "data" (field "x" (JString (str "Boom")))] (str "boom")
       (str "ALL")
     = Ok [field "data" (field "x" (JString (str "Boom")))]
  /\ filtered [field "Flag" (JBoolean true)] (str "flag") (str "ALL")
     = Ok [field "Flag" (JBoolean true)]
  /\ filtered [field "Flag" (JBoolean true)] (str "TRUE") (str "ALL")
     = Ok [field "Flag" (JBoolean true)]
  /\ filtered [field "Flag" (JBoolean true)] (str "false") (str "ALL") = Ok [].
Proof.
  split; [|split; [|split; [|split; [|repeat split; vm_compute; reflexivity]]]].
  - intro logs. apply filtered_ALL.
  - intros logs level. apply filtered_stages.
  - intro Hterm.
    exists (fun log => includes (toLowerCase (JSON_stringify log)) (toLowerCase term)).
    split.
    + intro log. apply includes_spec.
    + intro logs. rewrite filtered_ALL. destruct term; [contradiction | reflexivity].
  - intros Hascii logs. rewrite !filtered_ALL.
    rewrite (toLowerCase_toUpperCase _ Hascii).
    unfold toUpperCase. rewrite Hascii. now destruct term.
Qed.

(** C8: [filterLogs] always filters the complete record set, and what it
    keeps is a subsequence of it.  The array handed to [setFilteredLogs] keeps
    records of [logs], each at most once, in their order; it is computed
    from [logs] and the two arguments alone, whatever [filteredLogs] held
    before, also when [handleLevelFilter] follows [handleSearch]; and it is
    computed whenever ["ALL"] is selected or [getLogLevel] returns on every
    record. *)
Theorem filterLogs_filters_all_logs :
  (forall logs term level out,
      filtered logs term level = Ok out ->
      subsequence out logs /\ forall log, In log out -> In log logs)
  /\ (forall logs term level,
        (exists out, filtered logs term level = Ok out)
        <-> (level = str "ALL" \/ Forall resolves logs))
  /\ (forall st previous term out,
        filtered (logs st) term (selectedLevel st) = Ok out ->
        let st' := fst (handleSearch term (setFilteredLogs previous st)) in
        filteredLogs st' = out /\ logs st' = logs st /\ searchTerm st' = term)
  /\ (forall st previous level out,
        filtered (logs st) (searchTerm st) level = Ok out ->
        let st' := fst (handleLevelFilter level (setFilteredLogs previous st)) in
        filteredLogs st' = out /\ logs st' = logs st /\ selectedLevel st' = level)
  /\ (forall st term level narrowed out,
        filtered (logs st) term (selectedLevel st) = Ok narrowed ->
        filtered (logs st) term level = Ok out ->
        filteredLogs (fst (handleLevelFilter level (fst (handleSearch term st))))
        = out).
Proof.
  assert (Hsub : forall logs term level out,
             filtered logs term level = Ok out -> subsequence out logs).
  { intros logs term level out H. rewrite filtered_stages in H.
    destruct (filtered logs [] level) as [mid|e] eqn:Hmid; cbn [bind] in H;
      [|discriminate].
    rewrite filtered_ALL in H. injection H as <-.
    apply subsequence_trans with mid.
    - destruct (is_empty term); [apply subsequence_refl | apply filter_subsequence].
    - unfold filtered in Hmid. cbn [is_empty negb] in Hmid.
      rewrite bind_Ok_r in Hmid.
      destruct (negb (str_eqb level (str "ALL"))).
      + cbv zeta in Hmid.
        destruct (negb (indexOf levelHierarchy level =? -1)%Z);
          apply Array_filter_Ok in Hmid as [_ ->]; apply filter_subsequence.
      + injection Hmid as <-. apply subsequence_refl. }
  split; [|split; [|split; [|split]]].
  - intros logs term level out H. split; [now apply Hsub in H|].
    intros log. apply subsequence_In. now apply Hsub in H.
  - intros logs term level. rewrite filtered_stages. split.
    + intros [out H].
      destruct (str_eqb level (str "ALL")) eqn:E;
        [left; now apply str_eqb_eq|right].
      unfold filtered at 1 in H. rewrite E in H. cbn [negb is_empty] in H.
      rewrite bind_Ok_r in H. cbv zeta in H.
      destruct (negb (indexOf levelHierarchy level =? -1)%Z).
      * destruct (Array_filter _ logs) as [mid|e] eqn:Hmid in H; [|discriminate].
        apply Array_filter_Ok in Hmid as [Hall _].
        eapply label_callback_resolves; exact Hall.
      * destruct (Array_filter _ logs) as [mid|e] eqn:Hmid in H; [|discriminate].
        apply Array_filter_Ok in Hmid as [Hall _].
        eapply (label_callback_resolves (fun l => str_eqb l level)); exact Hall.
    + intros [-> | Hres].
      * rewrite filtered_ALL. cbn [bind]. rewrite filtered_ALL. eauto.
      * unfold filtered at 1. cbn [negb is_empty]. rewrite bind_Ok_r. cbv zeta.
        destruct (negb (str_eqb level (str "ALL"))).
        -- destruct (negb (indexOf levelHierarchy level =? -1)%Z).
           ++ rewrite (Array_filter_total _
                         (label_callback_total
                            (Array_includes
                               (slice levelHierarchy (indexOf levelHierarchy level)))
                            Hres)).
              cbn [bind]. rewrite filtered_ALL. eauto.
           ++ rewrite (Array_filter_total _
                         (label_callback_total (fun l => str_eqb l level) Hres)).
              cbn [bind]. rewrite filtered_ALL. eauto.
        -- cbn [bind]. rewrite filtered_ALL. eauto.
  - intros st previous term out H. unfold handleSearch, filterLogs. cbn.
    rewrite H. cbn. auto.
  - intros st previous level out H. unfold handleLevelFilter, filterLogs. cbn.
    rewrite H. cbn. auto.
  - intros st term level narrowed out H1 H2.
    unfold handleSearch, handleLevelFilter, filterLogs. cbn.
    rewrite H1. cbn. rewrite H2. reflexivity.
Qed.

(** C9: [filterLogs] can be repeated.  A call leaves [logs] and every other
    part of the state but [filteredLogs] as they were, and a second call with
    the same arguments ends in the same state with the same outcome as the
    first.  What a call computes depends on the records and the two arguments
    only: from two states with the same [logs] it ends with the same outcome
    and, when it returns, the same [filteredLogs]. *)
Theorem filterLogs_repeatable (term level : jsstring) (st : state) :
  let st' := fst (filterLogs term level st) in
  logs st' = logs st
  /\ searchTerm st' = searchTerm st
  /\ selectedLevel st' = selectedLevel st
  /\ availableLevels st' = availableLevels st
  /\ stats st' = stats st
  /\ filterLogs term level st' = filterLogs term level st
  /\ forall other,
       logs other = logs st ->
       snd (filterLogs term level other) = snd (filterLogs term level st)
       /\ (snd (filterLogs term level st) = None ->
           filteredLogs (fst (filterLogs term level other))
           = filteredLogs (fst (filterLogs term level st))).
Proof.
  assert (Hsame : forall other,
             logs other = logs st ->
             filtered (logs other) term level = filtered (logs st) term level)
    by (intros other ->; reflexivity).
  unfold filterLogs.
  destruct (filtered (logs st) term level) as [out|e] eqn:H; cbn; rewrite H;
    repeat split; try reflexivity.
  - now rewrite (Hsame other).
  - now rewrite (Hsame other).
  - now rewrite (Hsame other).
  - discriminate.
Qed.

End Filtering.

(** ** How filters compose *)

Lemma filter_all {A} (p : A -> bool) (l : list A) :
  (forall x, In x l -> p x = true) -> filter p l = l.
Proof.
  induction l as [|x l IH]; simpl; intro H; [reflexivity|].
  rewrite (H x (or_introl eq_refl)). f_equal. apply IH. auto.
Qed.

Lemma filter_commute {A} (p q : A -> bool) (l : list A) :
  filter p (filter q l) = filter q (filter p l).
Proof.
  induction l as [|x l IH]; simpl; [reflexivity|].
  destruct (p x) eqn:Hp, (q x) eqn:Hq; simpl; rewrite ?Hp, ?Hq, IH; reflexivity.
Qed.

Lemma filter_subsequence_impl {A} (p q : A -> bool) (l : list A) :
  (forall x, In x l -> p x = true -> q x = true) ->
  subsequence (filter p l) (filter q l).
Proof.
  induction l as [|x l IH]; simpl; intro H; [constructor|].
  assert (IH' : subsequence (filter p l) (filter q l)) by (apply IH; auto).
  destruct (p x) eqn:Hp.
  - rewrite (H x (or_introl eq_refl) Hp). now constructor.
  - destruct (q x); [now constructor | assumption].
Qed.

Lemma subsequence_length {A} (out l : list A) :
  subsequence out l -> List.length out <= List.length l.
Proof. induction 1; simpl; lia. Qed.

Lemma subsequence_Forall {A} (P : A -> Prop) (out l : list A) :
  subsequence out l -> Forall P l -> Forall P out.
Proof.
  intros Hsub Hl. rewrite Forall_forall in *. intros x Hx.
  apply Hl. eapply subsequence_In; eassumption.
Qed.

Lemma Array_filter_ext {A} (p q : A -> result bool) (l : list A) :
  (forall x, p x = q x) -> Array_filter p l = Array_filter q l.
Proof.
  intro H. induction l as [|x l IH]; simpl; [reflexivity|]. now rewrite H, IH.
Qed.

Lemma mapM_Ok_Forall {A B} (f : A -> result B) (l : list A) (out : list B) :
  mapM f l = Ok out ->
  Forall (fun x => exists y, f x = Ok y) l /\ List.length out = List.length l.
Proof.
  revert out; induction l as [|x l IH]; simpl; intros out H.
  - injection H as <-. split; [constructor | reflexivity].
  - destruct (f x) as [y|e] eqn:Hy; simpl in H; [|discriminate].
    destruct (mapM f l) as [ys|e] eqn:Hys; simpl in H; [|discriminate].
    injection H as <-. destruct (IH ys eq_refl) as [Hl Hlen]. split.
    + constructor; [now exists y | assumption].
    + simpl. now rewrite Hlen.
Qed.

Lemma mapM_total {A B} (f : A -> result B) (l : list A) :
  Forall (fun x => exists y, f x = Ok y) l -> exists out, mapM f l = Ok out.
Proof.
  induction 1 as [|x l [y Hy] Hl [ys IH]]; simpl.
  - now exists [].
  - rewrite Hy, IH. simpl. now exists (y :: ys).
Qed.

Section FilterAlgebra.

Context {host : Host}.

(** [filterLogs] keeps the records that pass the level test, then those of
    them that pass the search test. *)
Lemma filtered_as_tests (logs : list record) (term level : jsstring) :
  filtered logs term level
  = (mid <- Array_filter (levelTest level) logs ;; Ok (filter (searchTest term) mid)).
Proof.
  unfold filtered.
  assert (Hsearch : forall mid,
             (if negb (is_empty term)
              then Array_filter (fun log =>
                     Ok (includes (toLowerCase (JSON_stringify log))
                           (toLowerCase term))) mid
              else Ok mid)
             = Ok (filter (searchTest term) mid)).
  { intro mid. unfold searchTest. destruct (negb (is_empty term)).
    - apply Array_filter_pure.
    - now rewrite filter_all. }
  destruct (negb (str_eqb level (str "ALL"))) eqn:HALL.
  - cbv zeta.
    assert (Hlevel : Array_filter (levelTest level) logs
                     = if negb (indexOf levelHierarchy level =? -1)%Z
                       then Array_filter (fun log =>
                              logLevel <- getLogLevel log ;;
                              Ok (Array_includes
                                    (slice levelHierarchy
                                       (indexOf levelHierarchy level)) logLevel)) logs
                       else Array_filter (fun log =>
                              logLevel <- getLogLevel log ;;
                              Ok (str_eqb logLevel level)) logs).
    { unfold levelTest. rewrite HALL. cbv zeta.
      destruct (negb (indexOf levelHierarchy level =? -1)%Z); reflexivity. }
    rewrite Hlevel. clear Hlevel.
    destruct (negb (indexOf levelHierarchy level =? -1)%Z);
      destruct (Array_filter _ logs) as [mid|e]; cbn [bind];
      try reflexivity; apply Hsearch.
  - assert (Array_filter (levelTest level) logs = Ok logs) as ->.
    { unfold levelTest. rewrite HALL.
      rewrite (Array_filter_pure (fun _ => true)). now rewrite filter_all. }
    cbn [bind]. apply Hsearch.
Qed.

Lemma levelTest_returns (level : jsstring) (log : record) :
  resolves log -> exists b, levelTest level log = Ok b.
Proof.
  intros [label H]. unfold levelTest.
  destruct (negb (str_eqb level (str "ALL"))); [|eauto]. cbv zeta.
  destruct (negb (indexOf levelHierarchy level =? -1)%Z); rewrite H; cbn [bind]; eauto.
Qed.

Lemma levelTest_resolves (level : jsstring) (log : record) (b : bool) :
  level <> str "ALL" -> levelTest level log = Ok b -> resolves log.
Proof.
  intros HALL. unfold levelTest.
  assert (str_eqb level (str "ALL") = false) as -> by now apply str_eqb_neq.
  cbn [negb]. cbv zeta. unfold resolves.
  destruct (negb (indexOf levelHierarchy level =? -1)%Z);
    destruct (getLogLevel log) as [label|e]; cbn [bind]; intro H;
    try discriminate; eauto.
Qed.

Lemma filtered_Ok_tests (logs out : list record) (term level : jsstring) :
  filtered logs term level = Ok out ->
  Forall (fun log => exists b, levelTest level log = Ok b) logs
  /\ out = filter (searchTest term) (filter (accepts (levelTest level)) logs).
Proof.
  rewrite filtered_as_tests. intro H.
  destruct (Array_filter (levelTest level) logs) as [mid|e] eqn:Hmid;
    cbn [bind] in H; [|discriminate].
  injection H as <-. apply Array_filter_Ok in Hmid as [Hall ->]. auto.
Qed.

Lemma filtered_tests_total (logs : list record) (term level : jsstring) :
  Forall (fun log => exists b, levelTest level log = Ok b) logs ->
  filtered logs term level
  = Ok (filter (searchTest term) (filter (accepts (levelTest level)) logs)).
Proof.
  intro H. rewrite filtered_as_tests, (Array_filter_total _ H). reflexivity.
Qed.

Lemma filtered_returns (logs : list record) (term level : jsstring) :
  Forall resolves logs ->
  filtered logs term level
  = Ok (filter (searchTest term) (filter (accepts (levelTest level)) logs)).
Proof.
  intro H. apply filtered_tests_total.
  eapply Forall_impl; [|exact H]. intros log. apply levelTest_returns.
Qed.

Lemma filtered_subsequence (logs out : list record) (term level : jsstring) :
  filtered logs term level = Ok out -> subsequence out logs.
Proof.
  intro H. apply filtered_Ok_tests in H as [_ ->].
  eapply subsequence_trans; apply filter_subsequence.
Qed.

Lemma accepts_levelTest_ALL (log : record) :
  accepts (levelTest (str "ALL")) log = true.
Proof. reflexivity. Qed.

Lemma accepts_levelTest_floor (i : nat) (level : jsstring) (log : record) :
  nth_error levelHierarchy i = Some level ->
  accepts (levelTest level) log = true <-> atLeast i log.
Proof.
  intro Hi. unfold accepts, levelTest.
  assert (str_eqb level (str "ALL") = false) as ->.
  { apply str_eqb_neq. intros ->. apply ALL_not_in_levelHierarchy.
    eapply nth_error_In; eassumption. }
  cbn [negb]. cbv zeta.
  unfold indexOf. rewrite (indexOf_from_found 0 i NoDup_levelHierarchy Hi).
  assert ((0 + Z.of_nat i =? -1)%Z = false) as -> by (apply Z.eqb_neq; lia).
  cbn [negb]. unfold slice. rewrite Z.add_0_l, Nat2Z.id. unfold atLeast.
  destruct (getLogLevel log) as [label|e]; cbn [bind].
  - rewrite Array_includes_In, In_skipn_nth_error. split.
    + intros [j [Hij Hj]]. now exists label, j.
    + intros [label' [j [E [Hj Hij]]]]. injection E as <-. now exists j.
  - split; [discriminate | intros [label [j [E _]]]; discriminate].
Qed.

Lemma accepts_levelTest_exact (level : jsstring) (log : record) :
  level <> str "ALL" -> ~ In level levelHierarchy ->
  accepts (levelTest level) log = true <-> getLogLevel log = Ok level.
Proof.
  intros HALL Hin. unfold accepts, levelTest.
  assert (str_eqb level (str "ALL") = false) as -> by now apply str_eqb_neq.
  cbn [negb]. cbv zeta.
  unfold indexOf. rewrite (indexOf_from_absent _ _ 0 Hin). cbn [Z.eqb negb].
  destruct (getLogLevel log) as [label|e]; cbn [bind].
  - change (str_eqb label level = true <-> Ok label = Ok level).
    rewrite str_eqb_eq. split; [now intros -> | now intros [= ->]].
  - split; discriminate.
Qed.

Lemma filter_filter_impl {A} (p q : A -> bool) (l : list A) :
  (forall x, In x l -> p x = true -> q x = true) ->
  filter p (filter q l) = filter p l.
Proof.
  induction l as [|x l IH]; simpl; intro H; [reflexivity|].
  assert (IH' : filter p (filter q l) = filter p l) by (apply IH; auto).
  destruct (q x) eqn:Hq; simpl.
  - now rewrite IH'.
  - destruct (p x) eqn:Hp; [|assumption].
    rewrite (H x (or_introl eq_refl) Hp) in Hq. discriminate.
Qed.

Lemma searchTest_empty (log : record) : searchTest [] log = true.
Proof. reflexivity. Qed.

Lemma atLeast_weaken (i j : nat) (log : record) :
  i <= j -> atLeast j log -> atLeast i log.
Proof.
  intros Hij [label [k [Hlabel [Hk Hjk]]]]. exists label, k.
  split; [assumption|]. split; [assumption | lia].
Qed.

Lemma level_in_hierarchy_not_ALL (i : nat) (level : jsstring) :
  nth_error levelHierarchy i = Some level -> level <> str "ALL".
Proof.
  intros Hi ->. apply ALL_not_in_levelHierarchy. eapply nth_error_In; eassumption.
Qed.

(** X3: filtering what [filterLogs] returned, with the same term and level,
    returns it unchanged. *)
Theorem filtered_again_changes_nothing
  (logs out : list record) (term level : jsstring) :
  filtered logs term level = Ok out -> filtered out term level = Ok out.
Proof.
  intro H. pose proof (filtered_subsequence _ _ _ H) as Hsub.
  apply filtered_Ok_tests in H as [Hall Hout].
  rewrite (filtered_tests_total _ _ (subsequence_Forall Hsub Hall)). f_equal.
  assert (Hpass : forall x, In x out ->
            accepts (levelTest level) x = true /\ searchTest term x = true).
  { intros x Hx. rewrite Hout in Hx. apply filter_In in Hx as [Hx Hs].
    apply filter_In in Hx as [_ Ha]. auto. }
  rewrite (filter_all (accepts (levelTest level)) out)
    by (intros x Hx; apply Hpass, Hx).
  apply filter_all. intros x Hx. apply Hpass, Hx.
Qed.

(** X4: when [getLogLevel] returns on every record, the two tests can be
    applied in either order: searching under ["ALL"] and then applying the
    level to what was found gives what [filterLogs] gives with both at once. *)
Theorem search_then_level_is_both_at_once (logs : list record) (term level : jsstring) :
  Forall resolves logs ->
  filtered logs term level
  = (found <- filtered logs term (str "ALL") ;; filtered found [] level).
Proof.
  intro Hres. rewrite (filtered_returns term level Hres).
  rewrite (filtered_returns term (str "ALL") Hres). cbn [bind].
  rewrite (filter_all (accepts (levelTest (str "ALL"))))
    by (intros; apply accepts_levelTest_ALL).
  assert (Hfound : Forall resolves (filter (searchTest term) logs))
    by (eapply subsequence_Forall; [apply filter_subsequence | exact Hres]).
  rewrite (filtered_returns [] level Hfound). f_equal.
  rewrite (filter_all (searchTest [])) by (intros; apply searchTest_empty).
  apply filter_commute.
Qed.

(** X5: raising the selected level within the hierarchy only removes
    records.  What is returned for the higher level is a subsequence of what
    is returned for the lower one, and it is what the higher level alone keeps
    of the list returned for the lower one. *)
Theorem raising_the_level_narrows
  (i j : nat) (lower higher term : jsstring) (logs shown : list record) :
  nth_error levelHierarchy i = Some lower ->
  nth_error levelHierarchy j = Some higher ->
  i <= j ->
  filtered logs term lower = Ok shown ->
  exists fewer,
    filtered logs term higher = Ok fewer
    /\ subsequence fewer shown
    /\ filtered shown [] higher = Ok fewer.
Proof.
  intros Hi Hj Hij H.
  pose proof (filtered_subsequence _ _ _ H) as Hsub.
  apply filtered_Ok_tests in H as [Hall Hshown].
  assert (Hres : Forall resolves logs).
  { eapply Forall_impl; [|exact Hall]. intros log [b Hb].
    eapply levelTest_resolves; [|exact Hb].
    eapply level_in_hierarchy_not_ALL; eassumption. }
  assert (Himpl : forall x, In x logs ->
            accepts (levelTest higher) x = true ->
            accepts (levelTest lower) x = true).
  { intros x _ Hx. apply (@accepts_levelTest_floor i lower x Hi).
    apply atLeast_weaken with j; [assumption|].
    now apply (@accepts_levelTest_floor j higher x Hj). }
  exists (filter (searchTest term) (filter (accepts (levelTest higher)) logs)).
  split; [now apply filtered_returns|]. split.
  - rewrite Hshown.
    rewrite (filter_commute (searchTest term) (accepts (levelTest higher))).
    rewrite (filter_commute (searchTest term) (accepts (levelTest lower))).
    apply filter_subsequence_impl. intros x Hx. apply Himpl.
    now apply filter_In in Hx as [Hx _].
  - rewrite (filtered_returns [] higher (subsequence_Forall Hsub Hres)). f_equal.
    rewrite (filter_all (searchTest [])) by (intros; apply searchTest_empty).
    rewrite Hshown.
    rewrite (filter_commute (accepts (levelTest higher)) (searchTest term)).
    f_equal. now apply filter_filter_impl.
Qed.

(** X6: a longer search term only removes records.  For a term of ASCII
    characters, putting characters before or after it returns a subsequence
    of what the term itself returns, under the same level. *)
Theorem longer_term_narrows
  (before term after level : jsstring) (logs shown : list record) :
  forallb isAscii (before ++ term ++ after) = true ->
  filtered logs term level = Ok shown ->
  exists fewer,
    filtered logs (before ++ term ++ after) level = Ok fewer
    /\ subsequence fewer shown.
Proof.
  intros Hascii H. apply filtered_Ok_tests in H as [Hall ->].
  exists (filter (searchTest (before ++ term ++ after))
            (filter (accepts (levelTest level)) logs)).
  split; [now apply filtered_tests_total|].
  apply filter_subsequence_impl. intros x _.
  unfold searchTest.
  destruct (is_empty term) eqn:Hterm; cbn [negb]; [reflexivity|].
  destruct (is_empty (before ++ term ++ after)) eqn:Hlong.
  { destruct before; [|discriminate]. destruct term; discriminate. }
  cbn [negb]. rewrite !includes_spec. intros [a [b Hab]].
  rewrite !forallb_app in Hascii.
  apply andb_true_iff in Hascii as [Hb Hrest].
  apply andb_true_iff in Hrest as [Ht Ha].
  assert (Hlower : toLowerCase (before ++ term ++ after)
                   = map lowerAscii before ++ toLowerCase term ++ map lowerAscii after).
  { unfold toLowerCase. rewrite !forallb_app, Hb, Ht, Ha. cbn [andb].
    now rewrite !map_app. }
  rewrite Hlower in Hab.
  exists (a ++ map lowerAscii before), (map lowerAscii after ++ b).
  rewrite Hab. now rewrite <- !app_assoc.
Qed.

(** X7: every level the catalog offers shows something.  When
    [extractLevels] returns for a non-empty record set, selecting any entry
    of the list it returned, with no search term, returns at least one
    record. *)
Theorem every_offered_level_shows_a_record
  (logs : list record) (levels : list jsstring) (level : jsstring) :
  extractLevels logs = Ok levels ->
  In level levels ->
  logs <> [] ->
  exists shown, filtered logs [] level = Ok shown /\ shown <> [].
Proof.
  intros H Hin Hlogs.
  apply extractLevels_Ok_labels in H as [Hres [labels [-> [_ Hlabels]]]].
  rewrite (filtered_returns [] level Hres).
  rewrite (filter_all (searchTest [])) by (intros; apply searchTest_empty).
  eexists. split; [reflexivity|].
  destruct (str_eqb level (str "ALL")) eqn:HALL.
  - apply str_eqb_eq in HALL. subst level.
    rewrite filter_all by (intros; apply accepts_levelTest_ALL). exact Hlogs.
  - apply str_eqb_neq in HALL.
    destruct Hin as [E | Hin]; [congruence|].
    apply sort_In, Hlabels in Hin as [log [Hlog [_ Hlabel]]].
    assert (Hpass : accepts (levelTest level) log = true).
    { destruct (in_dec (list_eq_dec N.eq_dec) level levelHierarchy) as [Hh | Hh].
      - apply In_nth_error in Hh as [i Hi].
        apply (@accepts_levelTest_floor i level log Hi). exists level, i. auto.
      - now apply accepts_levelTest_exact. }
    intro Hempty.
    assert (Hshown : In log (filter (accepts (levelTest level)) logs))
      by (apply filter_In; auto).
    rewrite Hempty in Hshown. destruct Hshown.
Qed.

(** X8: a record with no level of its own is shown under no level but
    ["ALL"] and ["UNKNOWN"]: it is absent from what [filterLogs] returns for
    any other selected level, [DEBUG] included. *)
Theorem record_without_level_is_hidden
  (logs shown : list record) (term level : jsstring) (log : record) :
  hasLevel log = false ->
  level <> str "ALL" ->
  level <> str "UNKNOWN" ->
  filtered logs term level = Ok shown ->
  ~ In log shown.
Proof.
  intros Hnone HALL Hunknown H Hin.
  apply filtered_Ok_tests in H as [_ ->].
  apply filter_In in Hin as [Hin _]. apply filter_In in Hin as [_ Hpass].
  unfold accepts, levelTest in Hpass.
  assert (str_eqb level (str "ALL") = false) as E by now apply str_eqb_neq.
  rewrite E in Hpass. cbn [negb] in Hpass. cbv zeta in Hpass.
  destruct (getLogLevel log) as [label|e] eqn:Hlabel.
  - apply (getLogLevel_without_level _ Hnone) in Hlabel. subst label.
    destruct (negb (indexOf levelHierarchy level =? -1)%Z); cbn [bind] in Hpass.
    + apply Array_includes_In in Hpass. unfold slice in Hpass.
      apply In_skipn_nth_error in Hpass as [j [_ Hj]].
      apply nth_error_In in Hj. revert Hj. cbv. intuition discriminate.
    + apply str_eqb_eq in Hpass. congruence.
  - destruct (negb (indexOf levelHierarchy level =? -1)%Z); discriminate.
Qed.

End FilterAlgebra.

(** ** More on extraction *)

Lemma In_trimStart (s : jsstring) (c : N) : In c (trimStart s) -> In c s.
Proof.
  induction s as [|x s IH]; simpl; [auto|].
  destruct (isWhiteSpace x); simpl; auto.
Qed.

Lemma In_trim (s : jsstring) (c : N) : In c (trim s) -> In c s.
Proof.
  unfold trim, trimEnd. intro H. apply In_trimStart.
  apply in_rev in H. apply In_trimStart in H. now apply in_rev.
Qed.

Lemma trimStart_white (s : jsstring) :
  forallb isWhiteSpace s = true -> trimStart s = [].
Proof.
  induction s as [|x s IH]; simpl; [reflexivity|].
  intro H. apply andb_true_iff in H as [Hx Hs]. rewrite Hx. now apply IH.
Qed.

Lemma trim_white (s : jsstring) : forallb isWhiteSpace s = true -> trim s = [].
Proof. intro H. unfold trim. now rewrite (trimStart_white _ H). Qed.

(** A line that starts with [{] and ends with [}] has nothing to trim. *)
Lemma trim_candidate (s : jsstring) :
  startsWith s (str "{") = true -> endsWith s (str "}") = true -> trim s = s.
Proof.
  intros Hs He. unfold trim.
  assert (Hstart : trimStart s = s).
  { apply startsWith_spec in Hs as [b ->]. reflexivity. }
  rewrite Hstart. unfold trimEnd, endsWith in *.
  apply startsWith_spec in He as [r Hr]. rewrite Hr.
  change (rev (rev (str "}") ++ r) = s). rewrite <- Hr. apply rev_involutive.
Qed.

Lemma split_lines_no_separator (s : jsstring) (sep : N) :
  Forall (fun l => ~ In sep l) (split s sep).
Proof.
  induction s as [|c s IH]; simpl.
  - constructor; [intros [] | constructor].
  - destruct (c =? sep)%N eqn:Hc.
    + constructor; [intros [] | exact IH].
    + apply N.eqb_neq in Hc. destruct IH as [|l ls Hl Hls].
      * constructor; [|constructor]. intros [E | []]. congruence.
      * constructor; [|assumption]. intros [E | Hin]; [congruence | contradiction].
Qed.

Lemma split_lines_white (s : jsstring) (sep : N) :
  forallb isWhiteSpace s = true ->
  Forall (fun l => forallb isWhiteSpace l = true) (split s sep).
Proof.
  induction s as [|c s IH]; simpl; intro H.
  - repeat constructor.
  - apply andb_true_iff in H as [Hc Hs]. specialize (IH Hs).
    destruct (c =? sep)%N.
    + constructor; [reflexivity | exact IH].
    + destruct IH as [|l ls Hl Hls].
      * repeat constructor. simpl. now rewrite Hc.
      * constructor; [|assumption]. simpl. now rewrite Hc, Hl.
Qed.

Section ExtractionMore.

Context {host : Host}.

Lemma extract_white
  (JSON_parse : jsstring -> result record) (blank : jsstring) :
  forallb isWhiteSpace blank = true ->
  extractJsonObjects JSON_parse blank = {| jsonObjects := []; ignoredLines := 0 |}.
Proof.
  intro H. unfold extractJsonObjects. cbv zeta.
  pose proof (@split_lines_white blank 0x0A%N H) as Hlines.
  generalize {| jsonObjects := @nil record; ignoredLines := 0 |} as acc.
  induction Hlines as [|l ls Hl Hls IH]; intro acc; simpl; [reflexivity|].
  assert (extract_line JSON_parse acc l = acc) as ->.
  { unfold extract_line. now rewrite (trim_white _ Hl). }
  apply IH.
Qed.

Lemma extraction_append_nothing_r (a : extraction) :
  extraction_append a {| jsonObjects := []; ignoredLines := 0 |} = a.
Proof.
  destruct a as [objs n]. unfold extraction_append. simpl.
  now rewrite app_nil_r, Nat.add_0_r.
Qed.

Lemma extraction_append_nothing_l (a : extraction) :
  extraction_append {| jsonObjects := []; ignoredLines := 0 |} a = a.
Proof. now destruct a. Qed.

(** X9: [JSON.parse] is given candidate lines only.  Two parsers that agree
    on every text that starts with [{], ends with [}], holds no line feed and
    has no white space at either end give the same extraction of every
    content, however they differ on other texts. *)
Theorem parser_is_given_candidate_lines_only
  (parse1 parse2 : jsstring -> result record) (content : jsstring) :
  (forall s,
      startsWith s (str "{") = true ->
      endsWith s (str "}") = true ->
      ~ In 0x0A%N s ->
      trim s = s ->
      parse1 s = parse2 s) ->
  extractJsonObjects parse1 content = extractJsonObjects parse2 content.
Proof.
  intro Hagree. unfold extractJsonObjects. cbv zeta.
  pose proof (split_lines_no_separator content 0x0A%N) as Hlines.
  generalize {| jsonObjects := @nil record; ignoredLines := 0 |} as acc.
  induction Hlines as [|l ls Hl Hls IH]; intro acc; simpl; [reflexivity|].
  assert (extract_line parse1 acc l = extract_line parse2 acc l) as ->.
  { unfold extract_line.
    destruct (startsWith (trim l) (str "{")) eqn:Hs; [|reflexivity].
    destruct (endsWith (trim l) (str "}")) eqn:He; [|reflexivity].
    cbn [andb]. rewrite (Hagree (trim l) Hs He); [reflexivity | |].
    - intro Hin. apply Hl. now apply In_trim.
    - now apply trim_candidate. }
  apply IH.
Qed.

(** X10: white space between, before or after the lines adds nothing.  A
    block of white space (spaces, tabs, carriage returns, line feeds) put on
    lines of its own between two texts, before a text or after it leaves the
    records and [ignoredLines] as they are without it. *)
Theorem blank_lines_add_nothing
  (JSON_parse : jsstring -> result record) (a blank b : jsstring) :
  forallb isWhiteSpace blank = true ->
  extractJsonObjects JSON_parse (a ++ [0x0A%N] ++ blank ++ [0x0A%N] ++ b)
  = extractJsonObjects JSON_parse (a ++ [0x0A%N] ++ b)
  /\ extractJsonObjects JSON_parse (blank ++ [0x0A%N] ++ b)
     = extractJsonObjects JSON_parse b
  /\ extractJsonObjects JSON_parse (a ++ [0x0A%N] ++ blank)
     = extractJsonObjects JSON_parse a.
Proof.
  intro H. split; [|split].
  - rewrite !extractJsonObjects_app, (extract_white JSON_parse blank H).
    now rewrite extraction_append_nothing_l.
  - rewrite extractJsonObjects_app, (extract_white JSON_parse blank H).
    apply extraction_append_nothing_l.
  - rewrite extractJsonObjects_app, (extract_white JSON_parse blank H).
    apply extraction_append_nothing_r.
Qed.

End ExtractionMore.

(** ** Loading a file, sessions and the rendered component *)

Section Loading.

Context {host : Host}.
Variable JSON_parse : jsstring -> result record.

(** On an object [renderLogFields] yields the first truthy message field,
    [null] when there is none. *)
Lemma renderLogFields_JObject (props : list (jsstring * record)) :
  renderLogFields (JObject props)
  = Ok (if ToBoolean (own props (str "message")) then own props (str "message")
        else if ToBoolean (own props (str "msg")) then own props (str "msg")
        else if ToBoolean (own props (str "text")) then own props (str "text")
        else if ToBoolean (own props (str "description"))
        then own props (str "description")
        else Some JNull).
Proof.
  unfold renderLogFields, Get. cbv zeta. cbn [Array_find bind].
  destruct (ToBoolean (own props (str "message"))) eqn:Ha; cbn [bind];
    [reflexivity|].
  destruct (ToBoolean (own props (str "msg"))) eqn:Hb; cbn [bind];
    [reflexivity|].
  destruct (ToBoolean (own props (str "text"))) eqn:Hc; cbn [bind];
    [reflexivity|].
  destruct (ToBoolean (own props (str "description"))) eqn:Hd; cbn [bind];
    reflexivity.
Qed.

Lemma renderLogFields_returns (log : record) :
  resolves log -> exists message, renderLogFields log = Ok message.
Proof.
  intros [label H]. destruct log; try (eexists; reflexivity).
  - discriminate.
  - rewrite renderLogFields_JObject. eauto.
Qed.

Lemma renderCard_returns (isDark : bool) (log : record) :
  resolves log -> exists c, renderCard isDark log = Ok c.
Proof.
  intro Hres. destruct (renderLogFields_returns Hres) as [message Hm].
  destruct Hres as [label Hlabel].
  unfold renderCard. rewrite Hlabel, Hm. cbn [bind]. eauto.
Qed.

Lemma renderCard_resolves (isDark : bool) (log : record) (c : card) :
  renderCard isDark log = Ok c -> getLogLevel log = Ok (card_level c).
Proof.
  unfold renderCard.
  destruct (getLogLevel log) as [label|e]; cbn [bind]; [|discriminate].
  destruct (renderLogFields log) as [message|e]; cbn [bind]; [|discriminate].
  intro H. now injection H as <-.
Qed.

Lemma cards_levels (isDark : bool) (shown : list record) (cs : list card) :
  mapM (renderCard isDark) shown = Ok cs ->
  mapM getLogLevel shown = Ok (map card_level cs).
Proof.
  revert cs; induction shown as [|log shown IH]; simpl; intros cs H.
  - now injection H as <-.
  - destruct (renderCard isDark log) as [c|e] eqn:Hc; simpl in H; [|discriminate].
    destruct (mapM (renderCard isDark) shown) as [cs'|e] eqn:Hcs; simpl in H;
      [|discriminate].
    injection H as <-. rewrite (renderCard_resolves _ _ Hc). simpl.
    now rewrite (IH cs' eq_refl).
Qed.

Lemma cards_returned (isDark : bool) (shown : list record) :
  Forall resolves shown -> exists cs, mapM (renderCard isDark) shown = Ok cs.
Proof.
  intro H. apply mapM_total. eapply Forall_impl; [|exact H].
  intro log. apply renderCard_returns.
Qed.

Lemma cards_need_labels (isDark : bool) (shown : list record) (cs : list card) :
  mapM (renderCard isDark) shown = Ok cs -> Forall resolves shown.
Proof.
  intro H. apply mapM_Ok_Forall in H as [H _].
  eapply Forall_impl; [|exact H]. intros log [c Hc].
  exists (card_level c). eapply renderCard_resolves; eassumption.
Qed.

(** The state a file's text leaves when the catalog is computed. *)
Lemma handleFileUpload_loaded (content : jsstring) (st : state) (levels : list jsstring) :
  extractLevels (jsonObjects (extractJsonObjects JSON_parse content)) = Ok levels ->
  handleFileUpload JSON_parse (FileText content) st
  = ({| logs := jsonObjects (extractJsonObjects JSON_parse content);
        filteredLogs := jsonObjects (extractJsonObjects JSON_parse content);
        searchTerm := [];
        selectedLevel := str "ALL";
        availableLevels := levels;
        stats := {| total := List.length
                               (jsonObjects (extractJsonObjects JSON_parse content));
                    ignored := ignoredLines (extractJsonObjects JSON_parse content) |} |},
     None).
Proof. intro H. unfold handleFileUpload. cbv zeta. now rewrite H. Qed.

(** The state it leaves when the catalog raises. *)
Lemma handleFileUpload_alerted (content : jsstring) (st : state) (e : error) :
  extractLevels (jsonObjects (extractJsonObjects JSON_parse content)) = Throw e ->
  handleFileUpload JSON_parse (FileText content) st
  = ({| logs := jsonObjects (extractJsonObjects JSON_parse content);
        filteredLogs := jsonObjects (extractJsonObjects JSON_parse content);
        searchTerm := searchTerm st;
        selectedLevel := selectedLevel st;
        availableLevels := availableLevels st;
        stats := {| total := List.length
                               (jsonObjects (extractJsonObjects JSON_parse content));
                    ignored := ignoredLines (extractJsonObjects JSON_parse content) |} |},
     Some (Raised e)).
Proof. intro H. unfold handleFileUpload. cbv zeta. now rewrite H. Qed.

(** X11: a file whose catalog is computed replaces everything.  The state
    after the upload holds the file's records both as [logs] and as
    [filteredLogs], an empty search term, ["ALL"] as selected level, the
    catalog and the two counters, whatever the state was before; no alert is
    raised; what is shown is what [filterLogs] gives for the term and level
    just set; and the two counters add up to the number of non-blank lines of
    the file. *)
Theorem upload_replaces_the_whole_state
  (content : jsstring) (st : state) (levels : list jsstring) :
  extractLevels (jsonObjects (extractJsonObjects JSON_parse content)) = Ok levels ->
  let loaded := fst (handleFileUpload JSON_parse (FileText content) st) in
  snd (handleFileUpload JSON_parse (FileText content) st) = None
  /\ logs loaded = jsonObjects (extractJsonObjects JSON_parse content)
  /\ filteredLogs loaded = logs loaded
  /\ searchTerm loaded = []
  /\ selectedLevel loaded = str "ALL"
  /\ availableLevels loaded = levels
  /\ (forall earlier,
        fst (handleFileUpload JSON_parse (FileText content) earlier) = loaded)
  /\ shownIsFiltered loaded
  /\ total (stats loaded) = List.length (logs loaded)
  /\ total (stats loaded) + ignored (stats loaded) = nonBlankLineCount content.
Proof.
  intro H. cbv zeta. rewrite (handleFileUpload_loaded _ st H). cbn [fst snd].
  do 6 (split; [reflexivity|]).
  split; [|split; [|split; [reflexivity|]]].
  - intro earlier. now rewrite (handleFileUpload_loaded _ earlier H).
  - unfold shownIsFiltered. cbn [logs searchTerm selectedLevel filteredLogs].
    apply filtered_ALL.
  - cbn. exact (fold_extract_line_count JSON_parse (split content 0x0A%N)
                  {| jsonObjects := []; ignoredLines := 0 |}).
Qed.

(** X12: a file whose catalog raises is loaded half-way.  When
    [extractLevels] raises on the file's records, [handleFileUpload] alerts,
    [logs], [filteredLogs] and the counters are those of the new file while
    the search term, the selected level and the catalog stay those of the
    state before, and rendering the component in the state left raises, in
    either theme. *)
Theorem upload_with_failing_catalog
  (content : jsstring) (st : state) (e : error) :
  extractLevels (jsonObjects (extractJsonObjects JSON_parse content)) = Throw e ->
  let left := fst (handleFileUpload JSON_parse (FileText content) st) in
  snd (handleFileUpload JSON_parse (FileText content) st) = Some (Raised e)
  /\ logs left = jsonObjects (extractJsonObjects JSON_parse content)
  /\ filteredLogs left = logs left
  /\ total (stats left) = List.length (logs left)
  /\ searchTerm left = searchTerm st
  /\ selectedLevel left = selectedLevel st
  /\ availableLevels left = availableLevels st
  /\ forall isDark, exists e', render isDark left = Throw e'.
Proof.
  intro H. cbv zeta. rewrite (handleFileUpload_alerted _ st H). cbn [fst snd].
  repeat split. intro isDark. unfold render. cbn.
  destruct (jsonObjects (extractJsonObjects JSON_parse content)) as [|log rest] eqn:E.
  { discriminate. }
  cbn [List.length Nat.eqb].
  destruct (mapM (renderCard isDark) (log :: rest)) as [cs|e'] eqn:Hcs.
  - apply cards_need_labels in Hcs.
    destruct (extractLevels_returns Hcs) as [out Hout]. congruence.
  - cbn [bind]. eauto.
Qed.

(** X13: the level selector and the upload prompt after a load.  After a
    file whose catalog is computed, the component renders in either theme.
    With no record in the file it still shows the upload prompt.  Otherwise
    it shows the list: the counters are the number of records, the ignored
    lines, and again the number of records; the search box is empty; one card
    per record, labelled as [getLogLevel] labels the records, in their order;
    the line "No logs match your filters" is absent; and the level selector
    is rendered, with the catalog as options and ["ALL"] selected, exactly
    when some record has a level of its own. *)
Theorem view_after_upload
  (isDark : bool) (content : jsstring) (st : state) (levels : list jsstring) :
  extractLevels (jsonObjects (extractJsonObjects JSON_parse content)) = Ok levels ->
  let records := jsonObjects (extractJsonObjects JSON_parse content) in
  let loaded := fst (handleFileUpload JSON_parse (FileText content) st) in
  (records = [] -> render isDark loaded = Ok UploadPrompt)
  /\ (records <> [] ->
      exists l,
        render isDark loaded = Ok (LogList l)
        /\ found l = List.length records
        /\ linesIgnored l = ignoredLines (extractJsonObjects JSON_parse content)
        /\ showing l = List.length records
        /\ searchBox l = []
        /\ noMatch l = false
        /\ mapM getLogLevel records = Ok (map card_level (cards l))
        /\ (levelSelect l = None
            <-> Forall (fun log => hasLevel log = false) records)
        /\ (levelSelect l <> None -> levelSelect l = Some (levels, str "ALL"))).
Proof.
  intro H. cbv zeta. rewrite (handleFileUpload_loaded _ st H). cbn [fst].
  unfold render. cbn [logs filteredLogs stats searchTerm selectedLevel availableLevels
                      total ignored].
  split.
  - intros ->. reflexivity.
  - intro Hrecords.
    pose proof H as HL.
    apply extractLevels_Ok_labels in HL as [Hres [labels [-> [_ Hlabels]]]].
    destruct (jsonObjects (extractJsonObjects JSON_parse content))
      as [|log rest] eqn:E; [congruence|].
    cbn [List.length Nat.eqb].
    destruct (cards_returned isDark Hres) as [cs Hcs]. rewrite Hcs. cbn [bind].
    eexists. split; [reflexivity|]. cbn.
    repeat split; try reflexivity.
    + now apply cards_levels in Hcs.
    + destruct (sort labels) as [|l ls] eqn:Hsort; [|discriminate].
      intros _. apply Forall_forall. intros x Hx.
      destruct (hasLevel x) eqn:Hhas; [|reflexivity].
      rewrite Forall_forall in Hres. destruct (Hres x Hx) as [label Hlabel].
      assert (Hin : In label (sort labels))
        by (apply sort_In, Hlabels; exists x; auto).
      rewrite Hsort in Hin. destruct Hin.
    + intro Hnone. destruct (sort labels) as [|l ls] eqn:Hsort; [reflexivity|].
      exfalso.
      assert (Hin : In l (sort labels)) by (rewrite Hsort; now left).
      apply sort_In, Hlabels in Hin as [x [Hx [Hhas _]]].
      rewrite Forall_forall in Hnone. rewrite (Hnone x Hx) in Hhas. discriminate.
    + destruct (sort labels) as [|l ls] eqn:Hsort; cbn; [congruence | reflexivity].
Qed.

(** What holds of the state in every session. *)
Lemma dispatch_keeps_shown_within_logs (ev : event) (st : state) :
  subsequence (filteredLogs st) (logs st) /\ total (stats st) = List.length (logs st) ->
  subsequence (filteredLogs (fst (dispatch JSON_parse ev st)))
    (logs (fst (dispatch JSON_parse ev st)))
  /\ total (stats (fst (dispatch JSON_parse ev st)))
     = List.length (logs (fst (dispatch JSON_parse ev st))).
Proof.
  intros [Hsub Htotal]. destruct ev as [file|term|level]; cbn [dispatch fst].
  - destruct file as [| |content]; cbn; auto.
    destruct (extractLevels (jsonObjects (extractJsonObjects JSON_parse content)));
      cbn; split; try reflexivity; apply subsequence_refl.
  - unfold handleSearch, filterLogs. cbn.
    destruct (filtered (logs st) term (selectedLevel st)) as [out|e] eqn:H; cbn.
    + split; [|assumption]. eapply filtered_subsequence; eassumption.
    + auto.
  - unfold handleLevelFilter, filterLogs. cbn.
    destruct (filtered (logs st) (searchTerm st) level) as [out|e] eqn:H; cbn.
    + split; [|assumption]. eapply filtered_subsequence; eassumption.
    + auto.
Qed.

(** X14: in every session what is shown comes from the loaded records.
    Whatever the user does, and whatever goes wrong on the way,
    [filteredLogs] is a subsequence of [logs], the counter of objects found
    is the number of records held, and the number of records shown does not
    exceed it. *)
Theorem shown_records_come_from_logs (events : list event) :
  let st := fst (session JSON_parse events initialState) in
  subsequence (filteredLogs st) (logs st)
  /\ total (stats st) = List.length (logs st)
  /\ List.length (filteredLogs st) <= total (stats st).
Proof.
  cbv zeta.
  assert (H : forall st,
             subsequence (filteredLogs st) (logs st)
             /\ total (stats st) = List.length (logs st) ->
             subsequence (filteredLogs (fst (session JSON_parse events st)))
               (logs (fst (session JSON_parse events st)))
             /\ total (stats (fst (session JSON_parse events st)))
                = List.length (logs (fst (session JSON_parse events st)))).
  { induction events as [|ev events IH]; intros st Hst; cbn [session fst].
    - exact Hst.
    - apply IH. now apply dispatch_keeps_shown_within_logs. }
  destruct (H initialState) as [Hsub Htotal].
  { split; [constructor | reflexivity]. }
  split; [exact Hsub|]. split; [exact Htotal|].
  rewrite Htotal. now apply subsequence_length.
Qed.

(** A handler that raises no catalog alert keeps the records labelled and
    the list shown in step with the term and the level, and lets no
    exception out. *)
Lemma dispatch_without_catalog_alert (ev : event) (st : state) :
  Forall resolves (logs st) -> shownIsFiltered st ->
  (forall e, snd (dispatch JSON_parse ev st) <> Some (Alerted (Raised e))) ->
  Forall resolves (logs (fst (dispatch JSON_parse ev st)))
  /\ shownIsFiltered (fst (dispatch JSON_parse ev st))
  /\ forall e, snd (dispatch JSON_parse ev st) <> Some (Escaped e).
Proof.
  intros Hres Hshown Hquiet. destruct ev as [file|term|level].
  - cbn [dispatch fst snd] in *. destruct file as [| |content].
    + cbn. repeat split; auto. discriminate.
    + cbn. repeat split; auto. discriminate.
    + destruct (extractLevels (jsonObjects (extractJsonObjects JSON_parse content)))
        as [levels|e] eqn:H.
      * rewrite (handleFileUpload_loaded _ st H). cbn [fst snd option_map].
        split; [now apply extractLevels_Ok_labels in H|].
        split; [unfold shownIsFiltered; cbn [logs searchTerm selectedLevel filteredLogs fst];
                apply filtered_ALL | discriminate].
      * rewrite (handleFileUpload_alerted _ st H) in Hquiet.
        cbn [snd option_map] in Hquiet. now destruct (Hquiet e).
  - cbn [dispatch fst snd]. unfold handleSearch, filterLogs. cbn.
    rewrite (filtered_returns term (selectedLevel st) Hres). cbn.
    split; [assumption|]. split; [|discriminate].
    unfold shownIsFiltered. cbn. now apply filtered_returns.
  - cbn [dispatch fst snd]. unfold handleLevelFilter, filterLogs. cbn.
    rewrite (filtered_returns (searchTerm st) level Hres). cbn.
    split; [assumption|]. split; [|discriminate].
    unfold shownIsFiltered. cbn. now apply filtered_returns.
Qed.

(** X15: a session with no catalog alert.  When [handleFileUpload] never
    alerted because [extractLevels] raised, no exception left [handleSearch]
    or [handleLevelFilter] either, the list shown at the end is what
    [filterLogs] gives for the term and the level held, [getLogLevel]
    returns on every record held, and the component renders in either
    theme. *)
Theorem session_without_catalog_alert (events : list event) :
  (forall e, ~ In (Alerted (Raised e)) (snd (session JSON_parse events initialState))) ->
  let st := fst (session JSON_parse events initialState) in
  (forall e, ~ In (Escaped e) (snd (session JSON_parse events initialState)))
  /\ shownIsFiltered st
  /\ Forall resolves (logs st)
  /\ forall isDark, exists s, render isDark st = Ok s.
Proof.
  cbv zeta.
  assert (H : forall st,
             Forall resolves (logs st) -> shownIsFiltered st ->
             (forall e, ~ In (Alerted (Raised e)) (snd (session JSON_parse events st))) ->
             (forall e, ~ In (Escaped e) (snd (session JSON_parse events st)))
             /\ shownIsFiltered (fst (session JSON_parse events st))
             /\ Forall resolves (logs (fst (session JSON_parse events st)))).
  { induction events as [|ev events IH]; intros st Hres Hshown Hq;
      cbn [session fst snd] in *.
    - repeat split; auto.
    - assert (Hstep : forall e,
                 snd (dispatch JSON_parse ev st) <> Some (Alerted (Raised e))).
      { intros e E. apply (Hq e). rewrite E. now left. }
      destruct (dispatch_without_catalog_alert ev Hres Hshown Hstep)
        as [Hres' [Hshown' Hsafe]].
      assert (Hrest : forall e,
                 ~ In (Alerted (Raised e))
                     (snd (session JSON_parse events (fst (dispatch JSON_parse ev st))))).
      { intros e Hin. apply (Hq e).
        destruct (snd (dispatch JSON_parse ev st)); [now right | assumption]. }
      destruct (IH _ Hres' Hshown' Hrest) as [Hnone [Hs Hr]].
      split; [|auto]. intros e Hin.
      destruct (snd (dispatch JSON_parse ev st)) as [t|] eqn:Et.
      + destruct Hin as [-> | Hin]; [now apply (Hsafe e) | now apply (Hnone e)].
      + now apply (Hnone e). }
  intro Hquiet. destruct (H initialState) as [Hnone [Hshown Hres]].
  { constructor. }
  { reflexivity. }
  { exact Hquiet. }
  split; [exact Hnone|]. split; [exact Hshown|]. split; [exact Hres|].
  intro isDark. unfold render.
  destruct (List.length (logs (fst (session JSON_parse events initialState))) =? 0);
    [eauto|].
  assert (Hcards : Forall resolves
                     (filteredLogs (fst (session JSON_parse events initialState)))).
  { eapply subsequence_Forall; [|exact Hres].
    eapply filtered_subsequence. exact Hshown. }
  destruct (cards_returned isDark Hcards) as [cs ->]. cbn [bind]. eauto.
Qed.

End Loading.

(** ** Cards: icon, colour and message *)

Lemma upperAscii_lowerAscii (c : N) : upperAscii (lowerAscii c) = upperAscii c.
Proof.
  unfold lowerAscii, upperAscii.
  destruct (N.leb_spec 0x41 c), (N.leb_spec c 0x5A); simpl;
    try reflexivity.
  destruct (N.leb_spec 0x61 (c + 0x20)), (N.leb_spec (c + 0x20) 0x7A),
    (N.leb_spec 0x61 c), (N.leb_spec c 0x7A); simpl; try reflexivity; lia.
Qed.

Lemma isAscii_lowerAscii (c : N) : isAscii c = true -> isAscii (lowerAscii c) = true.
Proof.
  unfold isAscii, lowerAscii. rewrite !N.ltb_lt.
  destruct (N.leb_spec 0x41 c), (N.leb_spec c 0x5A); simpl; lia.
Qed.

Section Cards.

Context {host : Host}.

(** For ASCII text, upper-casing forgets a lower-casing done before. *)
Lemma toUpperCase_toLowerCase (s : jsstring) :
  forallb isAscii s = true -> toUpperCase (toLowerCase s) = toUpperCase s.
Proof.
  intro H. unfold toLowerCase, toUpperCase. rewrite H.
  assert (forallb isAscii (map lowerAscii s) = true) as ->.
  { rewrite forallb_forall in *. intros c Hc. apply in_map_iff in Hc as [d [<- Hd]].
    apply isAscii_lowerAscii. now apply H. }
  rewrite map_map. apply map_ext. intro c. apply upperAscii_lowerAscii.
Qed.

Lemma toUpperCase_twice (s : jsstring) :
  forallb isAscii s = true -> toUpperCase (toUpperCase s) = toUpperCase s.
Proof.
  intro H. unfold toUpperCase. rewrite H.
  assert (forallb isAscii (map upperAscii s) = true) as ->.
  { rewrite forallb_forall in *. intros c Hc. apply in_map_iff in Hc as [d [<- Hd]].
    apply isAscii_upperAscii. now apply H. }
  rewrite map_map. apply map_ext. intro c.
  unfold upperAscii.
  destruct (N.leb_spec 0x61 c), (N.leb_spec c 0x7A); cbn [andb];
    repeat match goal with
           | |- context [N.leb ?a ?b] => destruct (N.leb_spec a b)
           end; cbn [andb]; try reflexivity; lia.
Qed.

Lemma getLevelIcon_tone (level : jsstring) :
  getLevelIcon level
  = match tone_of level with
    | Blue => Info
    | Slate => AlertCircle
    | Yellow => AlertTriangle
    | Red => XCircle
    | Green => CheckCircle
    | Purple => AlertCircle
    end.
Proof.
  unfold getLevelIcon, tone_of. cbv zeta.
  repeat match goal with
         | |- context [if ?b then _ else _] => destruct b
         end; reflexivity.
Qed.

Lemma getLevelColor_tone (isDark : bool) (level : jsstring) :
  getLevelColor isDark level
  = match isDark, tone_of level with
    | true, Blue => str "bg-blue-900 border-blue-700 text-blue-300"
    | true, Slate => str "bg-slate-700 border-slate-600 text-slate-300"
    | true, Yellow => str "bg-yellow-900 border-yellow-700 text-yellow-300"
    | true, Red => str "bg-red-900 border-red-700 text-red-300"
    | true, Green => str "bg-green-900 border-green-700 text-green-300"
    | true, Purple => str "bg-purple-900 border-purple-700 text-purple-300"
    | false, Blue => str "bg-blue-50 border-blue-200 text-blue-700"
    | false, Slate => str "bg-gray-50 border-gray-200 text-gray-700"
    | false, Yellow => str "bg-yellow-50 border-yellow-200 text-yellow-700"
    | false, Red => str "bg-red-50 border-red-200 text-red-700"
    | false, Green => str "bg-green-50 border-green-200 text-green-700"
    | false, Purple => str "bg-purple-50 border-purple-200 text-purple-700"
    end.
Proof.
  unfold getLevelColor, tone_of. cbv zeta. destruct isDark;
  repeat match goal with
         | |- context [if ?b then _ else _] => destruct b
         end; reflexivity.
Qed.

Lemma color_fixes_tone (isDark : bool) (a b : jsstring) :
  getLevelColor isDark a = getLevelColor isDark b -> tone_of a = tone_of b.
Proof.
  rewrite !getLevelColor_tone.
  destruct isDark, (tone_of a), (tone_of b); intro H; try reflexivity;
    vm_compute in H; discriminate.
Qed.

(** X16: the colour of a card fixes its icon, in either theme.  Two levels
    that [getLevelColor] gives the same classes are given the same icon by
    [getLevelIcon], and the same classes in the other theme too; and two
    levels with different icons never share their classes. *)
Theorem same_color_same_icon (isDark : bool) (a b : jsstring) :
  getLevelColor isDark a = getLevelColor isDark b ->
  getLevelIcon a = getLevelIcon b
  /\ getLevelColor (negb isDark) a = getLevelColor (negb isDark) b.
Proof.
  intro H. apply color_fixes_tone in H.
  now rewrite !getLevelIcon_tone, !getLevelColor_tone, H.
Qed.

(** X17: icon and colour ignore the case of an ASCII level.  A level, its
    upper-case form and its lower-case form get the same icon and, in either
    theme, the same classes. *)
Theorem icon_and_color_ignore_case (level : jsstring) :
  forallb isAscii level = true ->
  getLevelIcon (toLowerCase level) = getLevelIcon level
  /\ getLevelIcon (toUpperCase level) = getLevelIcon level
  /\ forall isDark,
       getLevelColor isDark (toLowerCase level) = getLevelColor isDark level
       /\ getLevelColor isDark (toUpperCase level) = getLevelColor isDark level.
Proof.
  intro H.
  assert (Hl : tone_of (toLowerCase level) = tone_of level)
    by (unfold tone_of; now rewrite toUpperCase_toLowerCase).
  assert (Hu : tone_of (toUpperCase level) = tone_of level)
    by (unfold tone_of; now rewrite toUpperCase_twice).
  rewrite !getLevelIcon_tone, Hl, Hu. repeat split;
    now rewrite !getLevelColor_tone, ?Hl, ?Hu.
Qed.

(** What [renderLogFields] returns: the value of the first of the four
    message fields that is truthy, [null] when none is. *)
Lemma renderLogFields_first_truthy (log : record) (message : value) :
  renderLogFields log = Ok message ->
  (exists i f,
      nth_error messageFields i = Some f
      /\ Get log f = Ok message
      /\ ToBoolean message = true
      /\ forall j g, j < i -> nth_error messageFields j = Some g ->
           exists w, Get log g = Ok w /\ ToBoolean w = false)
  \/ (message = Some JNull
      /\ forall g, In g messageFields ->
           exists w, Get log g = Ok w /\ ToBoolean w = false).
Proof.
  assert (Hnone : forall l : record,
             (forall g, Get l g = Ok None) -> renderLogFields l = Ok (Some JNull) ->
             forall g, In g messageFields ->
               exists w, Get l g = Ok w /\ ToBoolean w = false).
  { intros l Hl _ g _. exists None. split; [apply Hl | reflexivity]. }
  destruct log as [|b|n|s|items|props]; intro H.
  - discriminate.
  - injection H as <-. right. split; [reflexivity|]. now apply Hnone.
  - injection H as <-. right. split; [reflexivity|]. now apply Hnone.
  - injection H as <-. right. split; [reflexivity|]. now apply Hnone.
  - injection H as <-. right. split; [reflexivity|]. now apply Hnone.
  - rewrite renderLogFields_JObject in H. unfold Get.
    destruct (ToBoolean (own props (str "message"))) eqn:Ha.
    { injection H as <-. left. exists 0, (str "message").
      repeat split; auto. intros j g Hj. lia. }
    destruct (ToBoolean (own props (str "msg"))) eqn:Hb.
    { injection H as <-. left. exists 1, (str "msg").
      repeat split; auto. intros j g Hj Hg.
      destruct j as [|j]; [|lia].
      injection Hg as <-. eauto. }
    destruct (ToBoolean (own props (str "text"))) eqn:Hc.
    { injection H as <-. left. exists 2, (str "text").
      repeat split; auto. intros j g Hj Hg.
      destruct j as [|[|j]]; [| |lia]; injection Hg as <-; eauto. }
    destruct (ToBoolean (own props (str "description"))) eqn:Hd.
    { injection H as <-. left. exists 3, (str "description").
      repeat split; auto. intros j g Hj Hg.
      destruct j as [|[|[|j]]]; [| | |lia]; injection Hg as <-; eauto. }
    injection H as <-. right. split; [reflexivity|].
    intros g [<-|[<-|[<-|[<-|[]]]]]; eauto.
Qed.

(** X18: the paragraph of a card is the first truthy message field.  When a
    card is rendered for a record, its label is what [getLogLevel] returns,
    its classes and icon are those of that label, and its paragraph is
    [formatValue] of the value of the first of [message], [msg], [text] and
    [description] that is truthy; there is no paragraph exactly when none of
    the four is. *)
Theorem card_shows_first_truthy_message_field
  (isDark : bool) (log : record) (c : card) :
  renderCard isDark log = Ok c ->
  getLogLevel log = Ok (card_level c)
  /\ card_color c = getLevelColor isDark (card_level c)
  /\ card_icon c = getLevelIcon (card_level c)
  /\ match card_message c with
     | Some text =>
         exists i f v,
           nth_error messageFields i = Some f
           /\ Get log f = Ok v
           /\ ToBoolean v = true
           /\ text = formatValue v
           /\ forall j g, j < i -> nth_error messageFields j = Some g ->
                exists w, Get log g = Ok w /\ ToBoolean w = false
     | None =>
         forall g, In g messageFields ->
           exists w, Get log g = Ok w /\ ToBoolean w = false
     end.
Proof.
  unfold renderCard.
  destruct (getLogLevel log) as [label|e]; cbn [bind]; [|discriminate].
  destruct (renderLogFields log) as [message|e] eqn:Hm; cbn [bind]; [|discriminate].
  intro H. injection H as <-. cbn [card_level card_color card_icon card_message].
  repeat split.
  destruct (renderLogFields_first_truthy _ Hm) as [[i [f [Hf [Hget [Htrue Hbefore]]]]]|[-> Hnone]].
  - rewrite Htrue. exists i, f, message. auto.
  - exact Hnone.
Qed.

End Cards.

(** ** The two filter handlers in either order *)

Section Handlers.

Context {host : Host}.

(** X19: typing a term and selecting a level can be done in either order.
    When [filterLogs] returns for the term and the level on the records held,
    [handleSearch] followed by [handleLevelFilter] and [handleLevelFilter]
    followed by [handleSearch] end in the same state: the term and the level
    are stored, the list shown is the one [filterLogs] computes for both
    together, and the rest is untouched. *)
Theorem search_and_level_in_either_order
  (term level : jsstring) (st : state) (out : list record) :
  filtered (logs st) term level = Ok out ->
  fst (handleLevelFilter level (fst (handleSearch term st)))
  = fst (handleSearch term (fst (handleLevelFilter level st)))
  /\ fst (handleSearch term (fst (handleLevelFilter level st)))
     = {| logs := logs st; filteredLogs := out; searchTerm := term;
          selectedLevel := level; availableLevels := availableLevels st;
          stats := stats st |}.
Proof.
  intro H.
  assert (Ha : fst (handleLevelFilter level (fst (handleSearch term st)))
               = {| logs := logs st; filteredLogs := out; searchTerm := term;
                    selectedLevel := level; availableLevels := availableLevels st;
                    stats := stats st |}).
  { unfold handleSearch, handleLevelFilter, filterLogs.
    cbn [setSearchTerm setSelectedLevel logs searchTerm selectedLevel].
    destruct (filtered (logs st) term (selectedLevel st)); cbn; now rewrite H. }
  assert (Hb : fst (handleSearch term (fst (handleLevelFilter level st)))
               = {| logs := logs st; filteredLogs := out; searchTerm := term;
                    selectedLevel := level; availableLevels := availableLevels st;
                    stats := stats st |}).
  { unfold handleSearch, handleLevelFilter, filterLogs.
    cbn [setSearchTerm setSelectedLevel logs searchTerm selectedLevel].
    destruct (filtered (logs st) (searchTerm st) level); cbn; now rewrite H. }
  now rewrite Ha, Hb.
Qed.

End Handlers.


(** * The statements on concrete inputs

    Evaluated on [reference_host]. *)

#[local] Existing Instance reference_host.

(** C1 as the specification words it fails on the single record [{}]: it
    resolves to ["UNKNOWN"], which the specification's catalog lists, while
    [extractLevels] returns ["ALL"] alone. *)
Lemma catalog_spec_counterexample :
  extractLevels [JObject []] = Ok [str "ALL"]
  /\ catalog_spec [JObject []] = Ok [str "ALL"; str "UNKNOWN"]
  /\ extractLevels [JObject []] <> catalog_spec [JObject []].
Proof.
  split; [vm_compute; reflexivity|]. split; [vm_compute; reflexivity|].
  vm_compute. discriminate.
Qed.

(** X1 on [{"level":"warn"}] and [{"level":"all"}]. *)
Lemma extractLevels_lists_ALL_twice_witness :
  extractLevels [leveled "warn"; leveled "all"]
  = Ok [str "ALL"; str "ALL"; str "WARN"]
  /\ (exists log,
        In log [leveled "warn"; leveled "all"]
        /\ hasLevel log = true /\ getLogLevel log = Ok (str "ALL"))
  /\ exists rest,
       [str "ALL"; str "ALL"; str "WARN"] = str "ALL" :: rest /\ In (str "ALL") rest.
Proof.
  assert (H : extractLevels [leveled "warn"; leveled "all"]
              = Ok [str "ALL"; str "ALL"; str "WARN"]) by (vm_compute; reflexivity).
  assert (Hlog : exists log,
             In log [leveled "warn"; leveled "all"]
             /\ hasLevel log = true /\ getLogLevel log = Ok (str "ALL")).
  { exists (leveled "all"). split; [right; now left|].
    split; vm_compute; reflexivity. }
  split; [exact H|]. split; [exact Hlog|].
  exact (@extractLevels_lists_ALL_twice reference_host _ _ H Hlog).
Defined.


(** C1 on four records, one of them with no level: the catalog is ["ALL"],
    ["DEBUG"], ["WARN"]. *)
Lemma extractLevels_labels_witness :
  extractLevels [leveled "warn"; JObject []; field "severity" (JString (str "Debug"));
                 leveled "WARN"]
  = Ok [str "ALL"; str "DEBUG"; str "WARN"]
  /\ StronglySorted str_lt [str "DEBUG"; str "WARN"]
  /\ (forall l, In l [str "DEBUG"; str "WARN"]
        <-> exists log,
              In log [leveled "warn"; JObject [];
                      field "severity" (JString (str "Debug")); leveled "WARN"]
              /\ hasLevel log = true /\ getLogLevel log = Ok l)
  /\ (exists levels,
        [str "ALL"; str "DEBUG"; str "WARN"] = str "ALL" :: levels
        /\ StronglySorted str_lt levels
        /\ NoDup levels
        /\ levels = [str "DEBUG"; str "WARN"])
  /\ Forall resolves [leveled "warn"; JObject [];
                      field "severity" (JString (str "Debug")); leveled "WARN"].
Proof.
  assert (Hout : extractLevels [leveled "warn"; JObject [];
                                field "severity" (JString (str "Debug"));
                                leveled "WARN"]
                 = Ok [str "ALL"; str "DEBUG"; str "WARN"])
    by (vm_compute; reflexivity).
  assert (Hsorted : StronglySorted str_lt [str "DEBUG"; str "WARN"])
    by (repeat constructor).
  assert (Hlabels : forall l, In l [str "DEBUG"; str "WARN"]
            <-> exists log,
                  In log [leveled "warn"; JObject [];
                          field "severity" (JString (str "Debug")); leveled "WARN"]
                  /\ hasLevel log = true /\ getLogLevel log = Ok l).
  { intro l. split.
    - intros [<- | [<- | []]].
      + exists (field "severity" (JString (str "Debug"))).
        split; [simpl; tauto|]. split; vm_compute; reflexivity.
      + exists (leveled "warn").
        split; [simpl; tauto|]. split; vm_compute; reflexivity.
    - intros [log [Hin [Hhas Hlabel]]].
      destruct Hin as [<- | [<- | [<- | [<- | []]]]];
        vm_compute in Hhas; try discriminate;
        vm_compute in Hlabel; injection Hlabel as <-.
      + right. left. reflexivity.
      + left. reflexivity.
      + right. left. reflexivity. }
  split; [exact Hout|]. split; [exact Hsorted|]. split; [exact Hlabels|]. split.
  - destruct (proj1 (@extractLevels_labels_of_leveled_records reference_host _) _ Hout)
      as [levels [E [Hs [Hnd [_ Hunique]]]]].
    exists levels. split; [exact E|]. split; [exact Hs|]. split; [exact Hnd|].
    exact (Hunique _ Hsorted Hlabels).
  - apply (proj2 (@extractLevels_labels_of_leveled_records reference_host _)).
    eexists. exact Hout.
Defined.

(** C2 as the specification words it fails on its own input: the three lines
    give three ignored lines, not two, on every host and whatever
    [JSON.parse] does. *)
Lemma pretty_printed_counterexample :
  (forall (host : Host) (JSON_parse : jsstring -> result (@record host)),
      ignoredLines (extractJsonObjects JSON_parse pretty_printed) = 3
      /\ jsonObjects (extractJsonObjects JSON_parse pretty_printed) = [])
  /\ 3 <> 2.
Proof.
  split; [|discriminate].
  intros host JSON_parse. split; vm_compute; reflexivity.
Qed.

(** C3 as the specification words it fails on [false], [0] and [null]: the
    specification takes such a value of [level] as the level, [getLogLevel]
    passes over it. *)
Lemma resolveLevel_spec_counterexample :
  (getLogLevel (JObject [(str "level", JBoolean false);
                         (str "severity", JString (str "warn"))])
   = Ok (str "WARN")
   /\ resolveLevel_spec [(str "level", JBoolean false);
                         (str "severity", JString (str "warn"))]
      = Ok (str "FALSE"))
  /\ (getLogLevel (field "level" (JNumber 0%Z)) = Ok (str "UNKNOWN")
      /\ resolveLevel_spec [(str "level", JNumber 0%Z)] = Ok (str "0"))
  /\ (getLogLevel (field "level" JNull) = Ok (str "UNKNOWN")
      /\ resolveLevel_spec [(str "level", JNull)] = Ok (str "NULL")).
Proof. repeat split; vm_compute; reflexivity. Qed.

(** C3 on [{"level":false,"severity":"warn"}], where [severity] is the first
    truthy field, and on [{"level":0,"msg":"x"}], where none is. *)
Lemma getLogLevel_first_truthy_field_witness :
  (nth_error levelFields 1 = Some (str "severity")
   /\ own [(str "level", JBoolean false); (str "severity", JString (str "warn"))]
        (str "severity") = Some (JString (str "warn"))
   /\ ToBoolean (Some (JString (str "warn"))) = true
   /\ (forall j k', j < 1 -> nth_error levelFields j = Some k' ->
         ToBoolean (own [(str "level", JBoolean false);
                         (str "severity", JString (str "warn"))] k') = false)
   /\ getLogLevel (JObject [(str "level", JBoolean false);
                            (str "severity", JString (str "warn"))])
      = (s <- ToString (JString (str "warn")) ;; Ok (toUpperCase s)))
  /\ ((forall k, In k levelFields ->
         ToBoolean (own [(str "level", JNumber 0%Z); (str "msg", JString (str "x"))] k)
         = false)
      /\ getLogLevel (JObject [(str "level", JNumber 0%Z);
                               (str "msg", JString (str "x"))])
         = Ok (str "UNKNOWN")).
Proof.
  assert (Hbefore : forall j k', j < 1 -> nth_error levelFields j = Some k' ->
            ToBoolean (own [(str "level", JBoolean false);
                            (str "severity", JString (str "warn"))] k') = false).
  { intros j k' Hj Hk. destruct j as [|j]; [|lia].
    injection Hk as <-. reflexivity. }
  assert (Hnone : forall k, In k levelFields ->
            ToBoolean (own [(str "level", JNumber 0%Z); (str "msg", JString (str "x"))] k)
            = false).
  { intros k [<- | [<- | [<- | [<- | []]]]]; reflexivity. }
  split.
  - split; [reflexivity|]. split; [reflexivity|]. split; [reflexivity|].
    split; [exact Hbefore|].
    exact (proj1 (getLogLevel_first_truthy_field
                    [(str "level", JBoolean false);
                     (str "severity", JString (str "warn"))])
             1 (str "severity") (JString (str "warn"))
             eq_refl eq_refl eq_refl Hbefore).
  - split; [exact Hnone|].
    exact (proj1 (proj2 (getLogLevel_first_truthy_field
                           [(str "level", JNumber 0%Z);
                            (str "msg", JString (str "x"))])) Hnone).
Defined.

(** C4 with ["WARN"] selected, position 2 of the hierarchy. *)
Lemma filtered_level_is_minimum_severity_witness :
  nth_error levelHierarchy 2 = Some (str "WARN")
  /\ filtered [leveled "fatal"; leveled "info"; JObject []; leveled "warn"] []
       (str "WARN")
     = Ok [leveled "fatal"; leveled "warn"]
  /\ Forall resolves [leveled "fatal"; leveled "info"; JObject []; leveled "warn"]
  /\ exists pass : record -> bool,
       (forall log, pass log = true <-> atLeast 2 log)
       /\ [leveled "fatal"; leveled "warn"]
          = filter pass [leveled "fatal"; leveled "info"; JObject []; leveled "warn"]
       /\ filtered [leveled "fatal"; leveled "info"; JObject []; leveled "warn"] []
            (str "WARN")
          = Ok (filter pass [leveled "fatal"; leveled "info"; JObject [];
                             leveled "warn"]).
Proof.
  assert (Hout : filtered [leveled "fatal"; leveled "info"; JObject []; leveled "warn"]
                   [] (str "WARN")
                 = Ok [leveled "fatal"; leveled "warn"]) by (vm_compute; reflexivity).
  assert (Hres : Forall resolves [leveled "fatal"; leveled "info"; JObject [];
                                  leveled "warn"])
    by (repeat constructor; eexists; vm_compute; reflexivity).
  split; [reflexivity|]. split; [exact Hout|]. split; [exact Hres|].
  destruct (@filtered_level_is_minimum_severity reference_host 2 (str "WARN")
              eq_refl)
    as [pass [Hpass [Hkept [Htotal _]]]].
  exists pass. split; [exact Hpass|]. split.
  - exact (Hkept _ _ Hout).
  - exact (Htotal _ Hres).
Defined.

(** C5 with ["SUCCESS"] selected. *)
Lemma filtered_level_outside_hierarchy_witness :
  str "SUCCESS" <> str "ALL"
  /\ ~ In (str "SUCCESS") levelHierarchy
  /\ filtered [leveled "INFO"; leveled "Success"; JObject []] [] (str "SUCCESS")
     = Ok [leveled "Success"]
  /\ Forall resolves [leveled "INFO"; leveled "Success"; JObject []]
  /\ exists pass : record -> bool,
       (forall log, pass log = true <-> getLogLevel log = Ok (str "SUCCESS"))
       /\ [leveled "Success"]
          = filter pass [leveled "INFO"; leveled "Success"; JObject []]
       /\ filtered [leveled "INFO"; leveled "Success"; JObject []] [] (str "SUCCESS")
          = Ok (filter pass [leveled "INFO"; leveled "Success"; JObject []]).
Proof.
  assert (HALL : str "SUCCESS" <> str "ALL") by discriminate.
  assert (Hout : ~ In (str "SUCCESS") levelHierarchy)
    by (cbv; intuition discriminate).
  assert (Hkeep : filtered [leveled "INFO"; leveled "Success"; JObject []] []
                    (str "SUCCESS")
                  = Ok [leveled "Success"]) by (vm_compute; reflexivity).
  assert (Hres : Forall resolves [leveled "INFO"; leveled "Success"; JObject []])
    by (repeat constructor; eexists; vm_compute; reflexivity).
  split; [exact HALL|]. split; [exact Hout|]. split; [exact Hkeep|].
  split; [exact Hres|].
  destruct (@filtered_level_outside_hierarchy_is_exact_match reference_host
              (str "SUCCESS") HALL Hout)
    as [pass [Hpass [Hkept [Htotal _]]]].
  exists pass. split; [exact Hpass|]. split.
  - exact (Hkept _ _ Hkeep).
  - exact (Htotal _ Hres).
Defined.

(** C6 with the term ["Boom"], and a number found by its digits. *)
Lemma filtered_search_witness :
  str "Boom" <> []
  /\ forallb isAscii (str "Boom") = true
  /\ (exists pass : record -> bool,
        (forall log, pass log = true <-> mentions (str "Boom") log)
        /\ filtered [field "n" (JNumber 42%Z);
                     field "data" (field "x" (JString (str "kaboom")))]
             (str "Boom") (str "ALL")
           = Ok (filter pass [field "n" (JNumber 42%Z);
                              field "data" (field "x" (JString (str "kaboom")))]))
  /\ filtered [field "n" (JNumber 42%Z);
               field "data" (field "x" (JString (str "kaboom")))]
       (toUpperCase (str "Boom")) (str "ALL")
     = filtered [field "n" (JNumber 42%Z);
                 field "data" (field "x" (JString (str "kaboom")))]
         (str "Boom") (str "ALL")
  /\ filtered [field "n" (JNumber 42%Z);
               field "data" (field "x" (JString (str "kaboom")))]
       (str "Boom") (str "ALL")
     = Ok [field "data" (field "x" (JString (str "kaboom")))]
  /\ filtered [field "n" (JNumber 42%Z);
               field "data" (field "x" (JString (str "kaboom")))]
       (str "42") (str "ALL")
     = Ok [field "n" (JNumber 42%Z)].
Proof.
  assert (Hterm : str "Boom" <> []) by discriminate.
  assert (Hascii : forallb isAscii (str "Boom") = true) by reflexivity.
  split; [exact Hterm|]. split; [exact Hascii|].
  destruct (@filtered_search_is_substring_of_json_text reference_host (str "Boom"))
    as [_ [_ [Hsearch [Hcase _]]]].
  split; [|split; [|split]].
  - destruct (Hsearch Hterm) as [pass [Hpass Hfilter]].
    exists pass. split; [exact Hpass | apply Hfilter].
  - apply (Hcase Hascii).
  - vm_compute. reflexivity.
  - vm_compute. reflexivity.
Defined.

(** C8 on [sample_state]: a search for ["r"] under ["ERROR"], then the level
    lowered to ["DEBUG"], which brings back the record the first filter had
    dropped. *)
Lemma filterLogs_filters_all_logs_witness :
  filtered (logs sample_state) (str "r") (selectedLevel sample_state)
  = Ok [leveled "error"]
  /\ filtered (logs sample_state) (str "r") (str "DEBUG")
     = Ok [leveled "error"; leveled "warn"]
  /\ subsequence [leveled "error"; leveled "warn"] (logs sample_state)
  /\ (str "DEBUG" = str "ALL" \/ Forall resolves (logs sample_state))
  /\ filteredLogs
       (fst (handleSearch (str "r")
               (setFilteredLogs [leveled "info"; leveled "info"] sample_state)))
     = [leveled "error"]
  /\ filteredLogs
       (fst (handleLevelFilter (str "DEBUG")
               (setFilteredLogs [] (setSearchTerm (str "r") sample_state))))
     = [leveled "error"; leveled "warn"]
  /\ filteredLogs
       (fst (handleLevelFilter (str "DEBUG") (fst (handleSearch (str "r") sample_state))))
     = [leveled "error"; leveled "warn"].
Proof.
  assert (H1 : filtered (logs sample_state) (str "r") (selectedLevel sample_state)
               = Ok [leveled "error"]) by (vm_compute; reflexivity).
  assert (H2 : filtered (logs sample_state) (str "r") (str "DEBUG")
               = Ok [leveled "error"; leveled "warn"]) by (vm_compute; reflexivity).
  destruct (@filterLogs_filters_all_logs reference_host)
    as [Hsub [Hreturns [Hsearch [Hlevel Hboth]]]].
  split; [exact H1|]. split; [exact H2|]. split; [|split; [|split; [|split]]].
  - exact (proj1 (Hsub _ _ _ _ H2)).
  - apply (proj1 (Hreturns (logs sample_state) (str "r") (str "DEBUG"))).
    eexists. exact H2.
  - exact (proj1 (Hsearch sample_state [leveled "info"; leveled "info"] (str "r")
                    _ H1)).
  - exact (proj1 (Hlevel (setSearchTerm (str "r") sample_state) [] (str "DEBUG")
                    _ H2)).
  - exact (Hboth sample_state (str "r") (str "DEBUG") _ _ H1 H2).
Defined.

(** C9 on [sample_state] and on a state that differs from it in
    [filteredLogs] and [searchTerm]. *)
Lemma filterLogs_repeatable_witness :
  logs (setFilteredLogs [] (setSearchTerm (str "zzz") sample_state))
  = logs sample_state
  /\ snd (filterLogs (str "r") (str "DEBUG")
            (setFilteredLogs [] (setSearchTerm (str "zzz") sample_state)))
     = snd (filterLogs (str "r") (str "DEBUG") sample_state)
  /\ snd (filterLogs (str "r") (str "DEBUG") sample_state) = None
  /\ filteredLogs (fst (filterLogs (str "r") (str "DEBUG")
                          (setFilteredLogs [] (setSearchTerm (str "zzz") sample_state))))
     = filteredLogs (fst (filterLogs (str "r") (str "DEBUG") sample_state))
  /\ filteredLogs (fst (filterLogs (str "r") (str "DEBUG") sample_state))
     = [leveled "error"; leveled "warn"].
Proof.
  assert (Hlogs : logs (setFilteredLogs [] (setSearchTerm (str "zzz") sample_state))
                  = logs sample_state) by reflexivity.
  assert (Hnone : snd (filterLogs (str "r") (str "DEBUG") sample_state) = None)
    by (vm_compute; reflexivity).
  pose proof (@filterLogs_repeatable reference_host (str "r") (str "DEBUG")
                sample_state) as H.
  cbv zeta in H. destruct H as [_ [_ [_ [_ [_ [_ Hsame]]]]]].
  destruct (Hsame _ Hlogs) as [Houtcome Hfiltered].
  split; [exact Hlogs|]. split; [exact Houtcome|]. split; [exact Hnone|].
  split; [exact (Hfiltered Hnone)|].
  vm_compute. reflexivity.
Defined.

(** X3 on the four records of [sample_state], the term ["o"] and ["INFO"]. *)
Lemma filtered_again_changes_nothing_witness :
  filtered (logs sample_state) (str "o") (str "INFO")
  = Ok [leveled "info"; leveled "error"]
  /\ filtered [leveled "info"; leveled "error"] (str "o") (str "INFO")
     = Ok [leveled "info"; leveled "error"].
Proof.
  assert (H : filtered (logs sample_state) (str "o") (str "INFO")
              = Ok [leveled "info"; leveled "error"]) by (vm_compute; reflexivity).
  split; [exact H|].
  exact (@filtered_again_changes_nothing reference_host _ _ _ _ H).
Defined.

(** X4 on the same records, term and level. *)
Lemma search_then_level_is_both_at_once_witness :
  Forall resolves (logs sample_state)
  /\ filtered (logs sample_state) (str "o") (str "INFO")
     = (found <- filtered (logs sample_state) (str "o") (str "ALL") ;;
        filtered found [] (str "INFO")).
Proof.
  assert (H : Forall resolves (logs sample_state)).
  { unfold sample_state; cbn [logs].
    repeat (constructor; [eexists; vm_compute; reflexivity|]). constructor. }
  split; [exact H|].
  exact (@search_then_level_is_both_at_once reference_host _ (str "o") (str "INFO") H).
Defined.

(** X5 from ["INFO"] up to ["ERROR"]. *)
Lemma raising_the_level_narrows_witness :
  nth_error levelHierarchy 1 = Some (str "INFO")
  /\ nth_error levelHierarchy 3 = Some (str "ERROR")
  /\ 1 <= 3
  /\ filtered (logs sample_state) [] (str "INFO") = Ok info_and_above
  /\ exists fewer,
       filtered (logs sample_state) [] (str "ERROR") = Ok fewer
       /\ subsequence fewer info_and_above
       /\ filtered info_and_above [] (str "ERROR") = Ok fewer.
Proof.
  assert (Hi : nth_error levelHierarchy 1 = Some (str "INFO")) by reflexivity.
  assert (Hj : nth_error levelHierarchy 3 = Some (str "ERROR")) by reflexivity.
  assert (Hij : 1 <= 3) by lia.
  assert (H : filtered (logs sample_state) [] (str "INFO") = Ok info_and_above)
    by (vm_compute; reflexivity).
  split; [exact Hi|]. split; [exact Hj|]. split; [exact Hij|]. split; [exact H|].
  exact (@raising_the_level_narrows reference_host 1 3 _ _ _ _ _ Hi Hj Hij H).
Defined.

(** X6 from the term ["rr"] to ["error"]. *)
Lemma longer_term_narrows_witness :
  forallb isAscii (str "e" ++ str "rr" ++ str "or") = true
  /\ filtered (logs sample_state) (str "rr") (str "ALL") = Ok [leveled "error"]
  /\ exists fewer,
       filtered (logs sample_state) (str "e" ++ str "rr" ++ str "or") (str "ALL")
       = Ok fewer
       /\ subsequence fewer [leveled "error"].
Proof.
  assert (Ha : forallb isAscii (str "e" ++ str "rr" ++ str "or") = true)
    by (vm_compute; reflexivity).
  assert (H : filtered (logs sample_state) (str "rr") (str "ALL")
              = Ok [leveled "error"]) by (vm_compute; reflexivity).
  split; [exact Ha|]. split; [exact H|].
  exact (@longer_term_narrows reference_host (str "e") (str "rr") (str "or") _ _ _ Ha H).
Defined.

(** X7 on the catalog of the four records and its entry ["WARN"]. *)
Lemma every_offered_level_shows_a_record_witness :
  extractLevels (logs sample_state)
  = Ok [str "ALL"; str "DEBUG"; str "ERROR"; str "INFO"; str "WARN"]
  /\ In (str "WARN") [str "ALL"; str "DEBUG"; str "ERROR"; str "INFO"; str "WARN"]
  /\ logs sample_state <> []
  /\ exists shown,
       filtered (logs sample_state) [] (str "WARN") = Ok shown /\ shown <> [].
Proof.
  assert (H : extractLevels (logs sample_state)
              = Ok [str "ALL"; str "DEBUG"; str "ERROR"; str "INFO"; str "WARN"])
    by (vm_compute; reflexivity).
  assert (Hin : In (str "WARN")
                  [str "ALL"; str "DEBUG"; str "ERROR"; str "INFO"; str "WARN"])
    by (do 4 right; left; reflexivity).
  assert (Hne : logs sample_state <> []) by discriminate.
  split; [exact H|]. split; [exact Hin|]. split; [exact Hne|].
  exact (@every_offered_level_shows_a_record reference_host _ _ _ H Hin Hne).
Defined.

(** X8 on [{}] beside [{"level":"info"}], with ["INFO"] selected. *)
Lemma record_without_level_is_hidden_witness :
  hasLevel (JObject [] : record) = false
  /\ str "INFO" <> str "ALL"
  /\ str "INFO" <> str "UNKNOWN"
  /\ filtered [leveled "info"; JObject []] [] (str "INFO") = Ok [leveled "info"]
  /\ ~ In (JObject []) [leveled "info"].
Proof.
  assert (Hhas : hasLevel (JObject [] : record) = false) by reflexivity.
  assert (HALL : str "INFO" <> str "ALL") by discriminate.
  assert (HUNKNOWN : str "INFO" <> str "UNKNOWN") by discriminate.
  assert (H : filtered [leveled "info"; JObject []] [] (str "INFO")
              = Ok [leveled "info"]) by (vm_compute; reflexivity).
  split; [exact Hhas|]. split; [exact HALL|]. split; [exact HUNKNOWN|].
  split; [exact H|].
  exact (@record_without_level_is_hidden reference_host _ _ _ _ _ Hhas HALL HUNKNOWN H).
Defined.

(** X9 on [sample_file], with a second parser that answers [null] on what
    does not start with a brace. *)
Lemma parser_is_given_candidate_lines_only_witness :
  (forall s,
      startsWith s (str "{") = true -> endsWith s (str "}") = true ->
      ~ In 0x0A%N s -> trim s = s ->
      parse_known sample_records s
      = (if startsWith s (str "{") then parse_known sample_records s else Ok JNull))
  /\ extractJsonObjects (parse_known sample_records) sample_file
     = extractJsonObjects
         (fun s => if startsWith s (str "{") then parse_known sample_records s
                   else Ok JNull)
         sample_file.
Proof.
  assert (H : forall s,
             startsWith s (str "{") = true -> endsWith s (str "}") = true ->
             ~ In 0x0A%N s -> trim s = s ->
             parse_known sample_records s
             = (if startsWith s (str "{") then parse_known sample_records s
                else Ok JNull)).
  { intros s Hs _ _ _. rewrite Hs. reflexivity. }
  split; [exact H|].
  exact (@parser_is_given_candidate_lines_only reference_host
           (parse_known sample_records)
           (fun s => if startsWith s (str "{") then parse_known sample_records s
                     else Ok JNull)
           sample_file H).
Defined.

(** X10 on a line of a space, a tab and a carriage return. *)
Lemma blank_lines_add_nothing_witness :
  forallb isWhiteSpace [0x20%N; 0x09%N; 0x0D%N] = true
  /\ extractJsonObjects (parse_known sample_records)
       (JSON_stringify disk_full ++ [0x0A%N] ++ [0x20%N; 0x09%N; 0x0D%N]
        ++ [0x0A%N] ++ str "{}")
     = extractJsonObjects (parse_known sample_records)
         (JSON_stringify disk_full ++ [0x0A%N] ++ str "{}")
  /\ extractJsonObjects (parse_known sample_records)
       ([0x20%N; 0x09%N; 0x0D%N] ++ [0x0A%N] ++ str "{}")
     = extractJsonObjects (parse_known sample_records) (str "{}")
  /\ extractJsonObjects (parse_known sample_records)
       (JSON_stringify disk_full ++ [0x0A%N] ++ [0x20%N; 0x09%N; 0x0D%N])
     = extractJsonObjects (parse_known sample_records) (JSON_stringify disk_full).
Proof.
  assert (H : forallb isWhiteSpace [0x20%N; 0x09%N; 0x0D%N] = true)
    by (vm_compute; reflexivity).
  split; [exact H|].
  exact (@blank_lines_add_nothing reference_host (parse_known sample_records)
           (JSON_stringify disk_full) _ (str "{}") H).
Defined.

(** X11 on [sample_file], loaded over [sample_state]. *)
Lemma upload_replaces_the_whole_state_witness :
  extractLevels (jsonObjects (extractJsonObjects (parse_known sample_records) sample_file))
  = Ok [str "ALL"; str "ERROR"; str "WARN"]
  /\ let loaded :=
       fst (handleFileUpload (parse_known sample_records) (FileText sample_file)
              sample_state) in
     snd (handleFileUpload (parse_known sample_records) (FileText sample_file)
            sample_state) = None
     /\ logs loaded
        = jsonObjects (extractJsonObjects (parse_known sample_records) sample_file)
     /\ filteredLogs loaded = logs loaded
     /\ searchTerm loaded = []
     /\ selectedLevel loaded = str "ALL"
     /\ availableLevels loaded = [str "ALL"; str "ERROR"; str "WARN"]
     /\ (forall earlier,
           fst (handleFileUpload (parse_known sample_records) (FileText sample_file)
                  earlier) = loaded)
     /\ shownIsFiltered loaded
     /\ total (stats loaded) = List.length (logs loaded)
     /\ total (stats loaded) + ignored (stats loaded) = nonBlankLineCount sample_file.
Proof.
  assert (H : extractLevels
                (jsonObjects (extractJsonObjects (parse_known sample_records) sample_file))
              = Ok [str "ALL"; str "ERROR"; str "WARN"]) by (vm_compute; reflexivity).
  split; [exact H|].
  exact (@upload_replaces_the_whole_state reference_host (parse_known sample_records)
           sample_file sample_state _ H).
Defined.

(** X12 on [masked_file], loaded over [sample_state]. *)
Lemma upload_with_failing_catalog_witness :
  extractLevels
    (jsonObjects (extractJsonObjects (parse_known [masked_level]) masked_file))
  = Throw TypeError
  /\ let left :=
       fst (handleFileUpload (parse_known [masked_level]) (FileText masked_file)
              sample_state) in
     snd (handleFileUpload (parse_known [masked_level]) (FileText masked_file)
            sample_state) = Some (Raised TypeError)
     /\ logs left
        = jsonObjects (extractJsonObjects (parse_known [masked_level]) masked_file)
     /\ filteredLogs left = logs left
     /\ total (stats left) = List.length (logs left)
     /\ searchTerm left = searchTerm sample_state
     /\ selectedLevel left = selectedLevel sample_state
     /\ availableLevels left = availableLevels sample_state
     /\ forall isDark, exists e', render isDark left = Throw e'.
Proof.
  assert (H : extractLevels
                (jsonObjects
                   (extractJsonObjects (parse_known [masked_level]) masked_file))
              = Throw TypeError) by (vm_compute; reflexivity).
  split; [exact H|].
  exact (@upload_with_failing_catalog reference_host (parse_known [masked_level])
           masked_file sample_state TypeError H).
Defined.

(** X13 on [sample_file] in the dark theme. *)
Lemma view_after_upload_witness :
  extractLevels (jsonObjects (extractJsonObjects (parse_known sample_records) sample_file))
  = Ok [str "ALL"; str "ERROR"; str "WARN"]
  /\ let records :=
       jsonObjects (extractJsonObjects (parse_known sample_records) sample_file) in
     let loaded :=
       fst (handleFileUpload (parse_known sample_records) (FileText sample_file)
              initialState) in
     (records = [] -> render true loaded = Ok UploadPrompt)
     /\ (records <> [] ->
         exists l,
           render true loaded = Ok (LogList l)
           /\ found l = List.length records
           /\ linesIgnored l
              = ignoredLines (extractJsonObjects (parse_known sample_records) sample_file)
           /\ showing l = List.length records
           /\ searchBox l = []
           /\ noMatch l = false
           /\ mapM getLogLevel records = Ok (map card_level (cards l))
           /\ (levelSelect l = None
               <-> Forall (fun log => hasLevel log = false) records)
           /\ (levelSelect l <> None ->
               levelSelect l = Some ([str "ALL"; str "ERROR"; str "WARN"], str "ALL"))).
Proof.
  assert (H : extractLevels
                (jsonObjects (extractJsonObjects (parse_known sample_records) sample_file))
              = Ok [str "ALL"; str "ERROR"; str "WARN"]) by (vm_compute; reflexivity).
  split; [exact H|].
  exact (@view_after_upload reference_host (parse_known sample_records) true
           sample_file initialState _ H).
Defined.

(** X15 on [sample_events]: the one alert is that of the unreadable file. *)
Lemma session_without_catalog_alert_witness :
  (forall e,
      ~ In (Alerted (Raised e))
          (snd (session (parse_known sample_records) sample_events initialState)))
  /\ let st := fst (session (parse_known sample_records) sample_events initialState) in
     (forall e,
         ~ In (Escaped e)
             (snd (session (parse_known sample_records) sample_events initialState)))
     /\ shownIsFiltered st
     /\ Forall resolves (logs st)
     /\ forall isDark, exists s, render isDark st = Ok s.
Proof.
  assert (H : forall e,
             ~ In (Alerted (Raised e))
                 (snd (session (parse_known sample_records) sample_events
                         initialState))).
  { intros e Hin. vm_compute in Hin. destruct Hin as [Hin | []]. discriminate. }
  split; [exact H|].
  exact (@session_without_catalog_alert reference_host (parse_known sample_records)
           sample_events H).
Defined.

(** X16 on ["error"] and ["Fatal"] in the light theme. *)
Lemma same_color_same_icon_witness :
  getLevelColor false (str "error") = getLevelColor false (str "Fatal")
  /\ getLevelIcon (str "error") = getLevelIcon (str "Fatal")
  /\ getLevelColor (negb false) (str "error") = getLevelColor (negb false) (str "Fatal").
Proof.
  assert (H : getLevelColor false (str "error") = getLevelColor false (str "Fatal"))
    by (vm_compute; reflexivity).
  split; [exact H|].
  exact (@same_color_same_icon reference_host false _ _ H).
Defined.

(** X17 on ["Warning"]. *)
Lemma icon_and_color_ignore_case_witness :
  forallb isAscii (str "Warning") = true
  /\ getLevelIcon (toLowerCase (str "Warning")) = getLevelIcon (str "Warning")
  /\ getLevelIcon (toUpperCase (str "Warning")) = getLevelIcon (str "Warning")
  /\ forall isDark,
       getLevelColor isDark (toLowerCase (str "Warning"))
       = getLevelColor isDark (str "Warning")
       /\ getLevelColor isDark (toUpperCase (str "Warning"))
          = getLevelColor isDark (str "Warning").
Proof.
  assert (H : forallb isAscii (str "Warning") = true) by (vm_compute; reflexivity).
  split; [exact H|].
  exact (@icon_and_color_ignore_case reference_host _ H).
Defined.

(** X18 on [disk_full], whose [message] is empty and whose [msg] is not. *)
Lemma card_shows_first_truthy_message_field_witness :
  renderCard false disk_full
  = Ok {| card_color := str "bg-red-50 border-red-200 text-red-700";
          card_icon := XCircle;
          card_level := str "ERROR";
          card_message := Some (str "disk full") |}
  /\ getLogLevel disk_full = Ok (str "ERROR")
  /\ str "bg-red-50 border-red-200 text-red-700" = getLevelColor false (str "ERROR")
  /\ XCircle = getLevelIcon (str "ERROR")
  /\ exists i f v,
       nth_error messageFields i = Some f
       /\ Get disk_full f = Ok v
       /\ ToBoolean v = true
       /\ str "disk full" = formatValue v
       /\ forall j g, j < i -> nth_error messageFields j = Some g ->
            exists w, Get disk_full g = Ok w /\ ToBoolean w = false.
Proof.
  assert (H : renderCard false disk_full
              = Ok {| card_color := str "bg-red-50 border-red-200 text-red-700";
                      card_icon := XCircle;
                      card_level := str "ERROR";
                      card_message := Some (str "disk full") |})
    by (vm_compute; reflexivity).
  split; [exact H|].
  exact (@card_shows_first_truthy_message_field reference_host false disk_full _ H).
Defined.

(** X19 on [sample_state], the term ["o"] and ["INFO"]. *)
Lemma search_and_level_in_either_order_witness :
  filtered (logs sample_state) (str "o") (str "INFO")
  = Ok [leveled "info"; leveled "error"]
  /\ fst (handleLevelFilter (str "INFO") (fst (handleSearch (str "o") sample_state)))
     = fst (handleSearch (str "o") (fst (handleLevelFilter (str "INFO") sample_state)))
  /\ fst (handleSearch (str "o") (fst (handleLevelFilter (str "INFO") sample_state)))
     = {| logs := logs sample_state;
          filteredLogs := [leveled "info"; leveled "error"];
          searchTerm := str "o";
          selectedLevel := str "INFO";
          availableLevels := availableLevels sample_state;
          stats := stats sample_state |}.
Proof.
  assert (H : filtered (logs sample_state) (str "o") (str "INFO")
              = Ok [leveled "info"; leveled "error"]) by (vm_compute; reflexivity).
  split; [exact H|].
  exact (@search_and_level_in_either_order reference_host _ _ sample_state _ H).
Defined.
